(** * libcryptoplus: ownership and error mapping of the RSA key and
      X.509 certificate wrappers

    A shallow embedding of

      - include/cryptopen/pkey/rsa_key.hpp      (class [rsa_key])
      - include/cryptoplus/x509/certificate.hpp (class [certificate])

    Both classes keep one member, a [boost::shared_ptr] bound to the
    OpenSSL free function of the wrapped object.  The embedding makes the
    state the C++ code works on explicit:

      - the OpenSSL side: live objects, the error queue, the answers the
        library is going to give, and the trace of the entry points reached;
      - the [boost::shared_ptr] side: the control blocks with their use
        counts and deleters, and the log of deleter invocations.

    Member functions are state-passing computations that either return a
    value or throw; stack unwinding (destruction of the members and
    temporaries that were already built) is written out.  Allocation
    failure of a control block ([std::bad_alloc]) is not modelled.

    The PEM writers and [public_key()] play no part in the properties
    below and are left out. *)

From stdpp Require Import gmap strings list fin_maps.

Open Scope Z_scope.

(** ** Addresses *)

(** Raw pointers ([RSA*], [X509*], [X509_NAME*], [BN_CTX*], [BIO*],
    [FILE*], [void*] and function pointers) are addresses; [NULL] is 0. *)
Definition NULL : Z := 0.

(** ** The OpenSSL side *)

(** What lives at an address of the library's heap. *)
Inductive object :=
| ObjRSA (blinding : bool)
| ObjX509 (subject issuer : Z)
| ObjX509_NAME
| ObjBN_CTX.

(** The four PEM entry decoders used by [certificate]. *)
Inductive pem_reader :=
| PEM_read_bio_X509
| PEM_read_bio_X509_AUX
| PEM_read_X509
| PEM_read_X509_AUX.

(** Library entry points, with the arguments they were reached with. *)
Inductive lib_call :=
| Call_RSA_new
| Call_RSA_free (rsa : Z)
| Call_RSA_generate_key (num : Z) (e : Z) (callback cb_arg : Z)
| Call_RSA_blinding_on (rsa ctx : Z)
| Call_RSA_blinding_off (rsa : Z)
| Call_X509_new
| Call_X509_free (x509 : Z)
| Call_PEM_read (f : pem_reader) (source dest callback cb_arg : Z)
| Call_X509_get_subject_name (x509 : Z)
| Call_X509_get_issuer_name (x509 : Z).

(** The answer of a fallible library call: success, or failure with the
    code it leaves on the error queue. *)
Inductive lib_outcome :=
| LibOk
| LibFail (code : Z).

(** ** The boost::shared_ptr side *)

(** The deleters the two headers bind. *)
Inductive deleter :=
| RSA_free
| X509_free
| null_deleter.

(** A control block: the pointer and deleter fixed at construction and the
    use count. *)
Record sp_block := SpBlock {
  blk_ptr : Z;
  blk_del : deleter;
  blk_use : nat
}.

(** A [boost::shared_ptr<T>]: the stored pointer and its control block. *)
Record shared_ptr := SharedPtr {
  sp_px : Z;
  sp_pn : nat
}.

(** One invocation of a deleter, as a test deleter would observe it,
    tagged with the control block that made it. *)
Record del_event := DelEvent {
  ev_block : nat;
  ev_del : deleter;
  ev_ptr : Z
}.

(** ** The world *)

Record world := World {
  w_live : gmap Z object;
  w_errq : list Z;
  w_script : list lib_outcome;
  w_trace : list lib_call;
  w_blocks : gmap nat sp_block;
  w_next : nat;
  w_deleted : list del_event
}.

Definition init_world (script : list lib_outcome) : world :=
  World ∅ [] script [] ∅ 0%nat [].

Definition set_live (f : gmap Z object → gmap Z object) (w : world) : world :=
  World (f (w_live w)) (w_errq w) (w_script w) (w_trace w)
        (w_blocks w) (w_next w) (w_deleted w).

Definition set_errq (q : list Z) (w : world) : world :=
  World (w_live w) q (w_script w) (w_trace w)
        (w_blocks w) (w_next w) (w_deleted w).

Definition set_script (s : list lib_outcome) (w : world) : world :=
  World (w_live w) (w_errq w) s (w_trace w)
        (w_blocks w) (w_next w) (w_deleted w).

Definition log_call (c : lib_call) (w : world) : world :=
  World (w_live w) (w_errq w) (w_script w) (w_trace w ++ [c])
        (w_blocks w) (w_next w) (w_deleted w).

Definition set_blocks (f : gmap nat sp_block → gmap nat sp_block) (w : world) : world :=
  World (w_live w) (w_errq w) (w_script w) (w_trace w)
        (f (w_blocks w)) (w_next w) (w_deleted w).

Definition bump_next (w : world) : world :=
  World (w_live w) (w_errq w) (w_script w) (w_trace w)
        (w_blocks w) (S (w_next w)) (w_deleted w).

Definition log_deleted (e : del_event) (w : world) : world :=
  World (w_live w) (w_errq w) (w_script w) (w_trace w)
        (w_blocks w) (w_next w) (w_deleted w ++ [e]).

(** ** Exceptions and computations *)

(** [error::cryptographic_exception] carries what was on the library's
    error queue; [std::invalid_argument] carries its message. *)
Inductive exn :=
| cryptographic_exception (queue : list Z)
| invalid_argument (what : string).

Inductive result (A : Type) :=
| Ok (a : A) (w : world)
| Throw (e : exn) (w : world).
Arguments Ok {A} a w.
Arguments Throw {A} e w.

Definition M (A : Type) : Type := world → result A.

Definition ret {A} (a : A) : M A := λ w, Ok a w.

Definition bind {A B} (m : M A) (k : A → M B) : M B :=
  λ w, match m w with
       | Ok a w1 => k a w1
       | Throw e w1 => Throw e w1
       end.

Definition throw {A} (e : exn) : M A := λ w, Throw e w.

(** A library call cannot throw: it maps a world to its answer and the
    next world. *)
Definition lift {A} (f : world → A * world) : M A :=
  λ w, let '(a, w1) := f w in Ok a w1.

Notation "'let*' x ':=' m 'in' k" := (bind m (λ x, k))
  (at level 10, x name, m at level 100, k at level 200).
Notation "m '>>' k" := (bind m (λ _, k))
  (at level 100, k at level 200, right associativity).

(** Run [m]; if it throws, [cleanup] destroys what had been built before
    the exception leaves the scope. *)
Definition on_unwind {A} (m : M A) (cleanup : world → world) : M A :=
  λ w, match m w with
       | Ok a w1 => Ok a w1
       | Throw e w1 => Throw e (cleanup w1)
       end.

(** Run [m]; [cleanup] destroys a temporary at the end of the full
    expression, on both the normal and the exceptional path. *)
Definition scoped {A} (m : M A) (cleanup : world → world) : M A :=
  λ w, match m w with
       | Ok a w1 => Ok a (cleanup w1)
       | Throw e w1 => Throw e (cleanup w1)
       end.

Definition world_of {A} (r : result A) : world :=
  match r with
  | Ok _ w => w
  | Throw _ w => w
  end.

(** ** OpenSSL, as far as the two headers use it

    The library is an external collaborator.  Its fallible entry points
    answer from the script of the world (an exhausted script answers with
    success); a failure leaves its code on the error queue and returns
    [NULL] (or 0). *)
Module openssl.

Definition next_outcome (w : world) : lib_outcome * world :=
  match w_script w with
  | [] => (LibOk, w)
  | o :: s => (o, set_script s w)
  end.

Definition fail (code : Z) (w : world) : world :=
  set_errq (w_errq w ++ [code]) w.

(** A non-null address at which nothing lives. *)
Definition fresh_addr (w : world) : Z :=
  fresh ({[NULL]} ∪ dom (w_live w)).

Definition alloc (o : object) (w : world) : Z * world :=
  let p := fresh_addr w in (p, set_live (insert p o) w).

(** A new X509 owns its subject and issuer names. *)
Definition alloc_X509 (w : world) : Z * world :=
  let '(s, w1) := alloc ObjX509_NAME w in
  let '(i, w2) := alloc ObjX509_NAME w1 in
  alloc (ObjX509 s i) w2.

Definition RSA_new (w : world) : Z * world :=
  match next_outcome (log_call Call_RSA_new w) with
  | (LibFail c, w1) => (NULL, fail c w1)
  | (LibOk, w1) => alloc (ObjRSA false) w1
  end.

(** [RSA_free(NULL)] does nothing. *)
Definition RSA_free (rsa : Z) (w : world) : world :=
  let w1 := log_call (Call_RSA_free rsa) w in
  if decide (rsa = NULL) then w1 else set_live (delete rsa) w1.

Definition set_blinding (b : bool) (rsa : Z) (w : world) : world :=
  match w_live w !! rsa with
  | Some (ObjRSA _) => set_live (insert rsa (ObjRSA b)) w
  | _ => w
  end.

(** Returns 1 on success and 0 on error; [ctx] is only used during the
    call. *)
Definition RSA_blinding_on (rsa ctx : Z) (w : world) : Z * world :=
  match next_outcome (log_call (Call_RSA_blinding_on rsa ctx) w) with
  | (LibFail c, w1) => (0, fail c w1)
  | (LibOk, w1) => (1, set_blinding true rsa w1)
  end.

Definition RSA_blinding_off (rsa : Z) (w : world) : unit * world :=
  (tt, set_blinding false rsa (log_call (Call_RSA_blinding_off rsa) w)).

Definition X509_new (w : world) : Z * world :=
  match next_outcome (log_call Call_X509_new w) with
  | (LibFail c, w1) => (NULL, fail c w1)
  | (LibOk, w1) => alloc_X509 w1
  end.

(** [X509_free(NULL)] does nothing; freeing a certificate frees the
    names it owns. *)
Definition X509_free (x509 : Z) (w : world) : world :=
  let w1 := log_call (Call_X509_free x509) w in
  if decide (x509 = NULL) then w1
  else match w_live w1 !! x509 with
       | Some (ObjX509 s i) =>
           set_live (λ m, delete x509 (delete s (delete i m))) w1
       | _ => set_live (delete x509) w1
       end.

(** [PEM_read_bio_X509], [PEM_read_bio_X509_AUX], [PEM_read_X509] and
    [PEM_read_X509_AUX]: [source] is the [BIO*] or [FILE*], [dest] the
    [X509**] the caller passes.  With a null [dest] the decoder allocates
    the certificate it returns. *)
Definition PEM_read (f : pem_reader) (source dest callback cb_arg : Z)
    (w : world) : Z * world :=
  let w0 := log_call (Call_PEM_read f source dest callback cb_arg) w in
  match next_outcome w0 with
  | (LibFail c, w1) => (NULL, fail c w1)
  | (LibOk, w1) => alloc_X509 w1
  end.

Definition X509_get_subject_name (x509 : Z) (w : world) : Z * world :=
  (match w_live w !! x509 with
   | Some (ObjX509 s _) => s
   | _ => NULL
   end, log_call (Call_X509_get_subject_name x509) w).

Definition X509_get_issuer_name (x509 : Z) (w : world) : Z * world :=
  (match w_live w !! x509 with
   | Some (ObjX509 _ i) => i
   | _ => NULL
   end, log_call (Call_X509_get_issuer_name x509) w).

End openssl.

(** Modelled from the spec: [name::null_deleter] is declared in
    x509/name.hpp, which is not among the sources.  It is the no-op deleter
    of the non-owning views: invoked on the address of a name, it leaves
    the name to the certificate that owns it. *)
Definition name_null_deleter (x509_name : Z) (w : world) : world := w.

(** ** boost::shared_ptr *)
Module boost.

(** Invoking a deleter on the stored pointer. *)
Definition run_deleter (d : deleter) (p : Z) (w : world) : world :=
  match d with
  | RSA_free => openssl.RSA_free p w
  | X509_free => openssl.X509_free p w
  | null_deleter => name_null_deleter p w
  end.

(** [shared_ptr<T>(p, d)]: a new control block with use count 1, also
    when [p] is null. *)
Definition make (p : Z) (d : deleter) : M shared_ptr :=
  λ w, let b := w_next w in
       Ok (SharedPtr p b)
          (bump_next (set_blocks (insert b (SpBlock p d 1)) w)).

Definition add_ref (b : sp_block) : sp_block :=
  SpBlock (blk_ptr b) (blk_del b) (S (blk_use b)).

(** Copy construction: one more reference to the same control block. *)
Definition copy (s : shared_ptr) : M shared_ptr :=
  λ w, Ok s (set_blocks (alter add_ref (sp_pn s)) w).

(** Destruction of one [shared_ptr]: the use count goes down; when the
    last reference goes, the deleter is invoked on the stored pointer
    (null or not) and the control block is destroyed. *)
Definition release (s : shared_ptr) (w : world) : world :=
  match w_blocks w !! sp_pn s with
  | Some (SpBlock p d (S (S n))) =>
      set_blocks (insert (sp_pn s) (SpBlock p d (S n))) w
  | Some (SpBlock p d _) =>
      set_blocks (delete (sp_pn s))
        (run_deleter d p (log_deleted (DelEvent (sp_pn s) d p) w))
  | None => w
  end.

(** [get()]. *)
Definition get (s : shared_ptr) : Z := sp_px s.

(** Conversion to bool: true iff the stored pointer is not null. *)
Definition to_bool (s : shared_ptr) : bool := negb (sp_px s =? NULL).

End boost.

(** ** error::throw_error_if_not *)
Module error.

(** Modelled from the spec: error/cryptographic_exception.hpp is not among
    the sources.  The throw-if-not translator checks the convention (a null
    pointer or a zero return code is a failure), drains the library's error
    queue and raises a cryptographic error that carries the queue's
    contents. *)
Definition throw_error_if_not (condition : bool) : M unit :=
  λ w, if condition then Ok tt w
       else Throw (cryptographic_exception (w_errq w)) (set_errq [] w).

End error.

(** ** cryptopen::pkey::rsa_key (rsa_key.hpp) *)
Module rsa_key.

(** [boost::shared_ptr<RSA> m_rsa] is the only member. *)
Record t := Build { m_rsa : shared_ptr }.

(** [rsa_key::rsa_key() : m_rsa(RSA_new(), RSA_free)]
    [{ error::throw_error_if_not(m_rsa); }]
    An exception from the body destroys the member. *)
Definition ctor : M t :=
  let* p := lift openssl.RSA_new in
  let* m_rsa := boost.make p RSA_free in
  on_unwind (error.throw_error_if_not (boost.to_bool m_rsa))
            (boost.release m_rsa) >>
  ret (Build m_rsa).

(** [rsa_key::rsa_key(boost::shared_ptr<RSA> rsa) : m_rsa(rsa)]
    [{ error::throw_error_if_not(m_rsa); }]   (private) *)
Definition ctor_shared (rsa : shared_ptr) : M t :=
  let* m_rsa := boost.copy rsa in
  on_unwind (error.throw_error_if_not (boost.to_bool m_rsa))
            (boost.release m_rsa) >>
  ret (Build m_rsa).

(** [error::throw_error_if_not(RSA_blinding_on(m_rsa.get(), ctx));] *)
Definition enable_blinding (this : t) (ctx : Z) : M unit :=
  let* r := lift (openssl.RSA_blinding_on (boost.get (m_rsa this)) ctx) in
  error.throw_error_if_not (negb (r =? 0)).

(** [RSA_blinding_off(m_rsa.get());] *)
Definition disable_blinding (this : t) : M unit :=
  lift (openssl.RSA_blinding_off (boost.get (m_rsa this))).

(** [return m_rsa.get();] *)
Definition raw (this : t) : Z := boost.get (m_rsa this).

(** [return lhs.raw() == rhs.raw();] *)
Definition operator_eq (lhs rhs : t) : bool := raw lhs =? raw rhs.

(** [return lhs.raw() != rhs.raw();] *)
Definition operator_ne (lhs rhs : t) : bool := negb (raw lhs =? raw rhs).

End rsa_key.

(** ** The declaration of class rsa_key (rsa_key.hpp, lines 67 to 126) *)

Inductive access :=
| Public
| Private.

Inductive member_kind :=
| Constructor
| StaticMember
| Method.

(** The parameter and return types that occur in the declaration. *)
Inductive cxx_type :=
| T_void
| T_int
| T_unsigned_long
| T_generate_callback_type
| T_void_ptr
| T_BN_CTX_ptr
| T_RSA_ptr
| T_const_RSA_ptr
| T_shared_ptr_RSA
| T_const_rsa_key_ref
| T_rsa_key.

Record member := Member {
  mem_name : string;
  mem_access : access;
  mem_kind : member_kind;
  mem_params : list cxx_type;
  mem_return : cxx_type
}.

(** The members in the order of the declaration; the last one is the copy
    constructor the compiler declares. *)
Definition rsa_key_members : list member :=
  [ Member "generate" Public StaticMember
      [T_int; T_unsigned_long; T_generate_callback_type; T_void_ptr] T_rsa_key;
    Member "rsa_key" Public Constructor [] T_rsa_key;
    Member "enable_blinding" Public Method [T_BN_CTX_ptr] T_void;
    Member "disable_blinding" Public Method [] T_void;
    Member "raw" Public Method [] T_RSA_ptr;
    Member "raw" Public Method [] T_const_RSA_ptr;
    Member "rsa_key" Private Constructor [T_shared_ptr_RSA] T_rsa_key;
    Member "rsa_key" Public Constructor [T_const_rsa_key_ref] T_rsa_key ].

(** A member creates an [rsa_key] when it is a constructor or a static
    member that returns one. *)
Definition creates_rsa_key (m : member) : bool :=
  match mem_kind m, mem_return m with
  | Constructor, _ => true
  | StaticMember, T_rsa_key => true
  | _, _ => false
  end.

(** An already-allocated key reaches a member as an [RSA*] or as a
    [boost::shared_ptr<RSA>]. *)
Definition is_allocated_key (t : cxx_type) : bool :=
  match t with
  | T_RSA_ptr | T_const_RSA_ptr | T_shared_ptr_RSA => true
  | _ => false
  end.

Definition receives_allocated_key (m : member) : bool :=
  existsb is_allocated_key (mem_params m).

Definition is_public (m : member) : bool :=
  match mem_access m with
  | Public => true
  | Private => false
  end.

(** ** cryptoplus::x509::name, as far as certificate.hpp uses it *)
Module name.

(** Modelled from the spec: x509/name.hpp is not among the sources.  A name
    is a handle on an [X509_NAME], with the value semantics of the other
    wrappers: it keeps the [boost::shared_ptr] it is built from. *)
Record t := Build { m_name : shared_ptr }.

(** Modelled from the spec: the constructor [name(boost::shared_ptr<X509_NAME>)]
    that [certificate::subject] and [certificate::issuer] call.  Like every
    owning handle, it refuses a null address with a cryptographic error. *)
Definition ctor_shared (x : shared_ptr) : M t :=
  let* m_name := boost.copy x in
  on_unwind (error.throw_error_if_not (boost.to_bool m_name))
            (boost.release m_name) >>
  ret (Build m_name).

(** Modelled from the spec: the address a name references. *)
Definition raw (this : t) : Z := boost.get (m_name this).

End name.

(** ** cryptoplus::bio::bio_ptr, as far as certificate.hpp uses it *)
Module bio_ptr.

(** Modelled from the spec: bio/bio_ptr.hpp is not among the sources.  The
    byte-stream handle exposes the raw [BIO*] the PEM library reads. *)
Record t := Build { raw : Z }.

End bio_ptr.

(** ** cryptoplus::x509::certificate (certificate.hpp) *)
Module certificate.

(** [boost::shared_ptr<X509> m_x509] is the only member. *)
Record t := Build { m_x509 : shared_ptr }.

(** [certificate::certificate(boost::shared_ptr<X509> x509) : m_x509(x509)]
    [{ error::throw_error_if_not(m_x509); }]   (private) *)
Definition ctor_shared (x509 : shared_ptr) : M t :=
  let* m_x509 := boost.copy x509 in
  on_unwind (error.throw_error_if_not (boost.to_bool m_x509))
            (boost.release m_x509) >>
  ret (Build m_x509).

(** The body shared by the four loaders:
    [return certificate(boost::shared_ptr<X509>(PEM_read...(source, NULL,
    callback, callback_arg), X509_free));]
    The temporary [shared_ptr] is the constructor's argument and is
    destroyed when the return statement is done, whether the constructor
    threw or not. *)
Definition load (f : pem_reader) (source callback callback_arg : Z) : M t :=
  let* p := lift (openssl.PEM_read f source NULL callback callback_arg) in
  let* tmp := boost.make p X509_free in
  scoped (ctor_shared tmp) (boost.release tmp).

(** [from_certificate(bio::bio_ptr bio, callback, callback_arg)] *)
Definition from_certificate_bio (bio : bio_ptr.t) (callback callback_arg : Z)
    : M t :=
  load PEM_read_bio_X509 (bio_ptr.raw bio) callback callback_arg.

(** [from_trusted_certificate(bio::bio_ptr bio, callback, callback_arg)] *)
Definition from_trusted_certificate_bio (bio : bio_ptr.t)
    (callback callback_arg : Z) : M t :=
  load PEM_read_bio_X509_AUX (bio_ptr.raw bio) callback callback_arg.

(** [from_certificate(FILE* file, callback, callback_arg)] *)
Definition from_certificate_file (file : Z) (callback callback_arg : Z)
    : M t :=
  load PEM_read_X509 file callback callback_arg.

(** [from_trusted_certificate(FILE* file, callback, callback_arg)] *)
Definition from_trusted_certificate_file (file : Z)
    (callback callback_arg : Z) : M t :=
  load PEM_read_X509_AUX file callback callback_arg.

(** [certificate::certificate() : m_x509(X509_new(), X509_free)]
    [{ error::throw_error_if_not(m_x509); }] *)
Definition ctor : M t :=
  let* p := lift openssl.X509_new in
  let* m_x509 := boost.make p X509_free in
  on_unwind (error.throw_error_if_not (boost.to_bool m_x509))
            (boost.release m_x509) >>
  ret (Build m_x509).

(** [certificate::certificate(X509* x509) : m_x509(x509, X509_free)]
    [{ if (!m_x509) { throw std::invalid_argument("certificate"); } }] *)
Definition ctor_raw (x509 : Z) : M t :=
  let* m_x509 := boost.make x509 X509_free in
  if negb (boost.to_bool m_x509)
  then on_unwind (throw (invalid_argument "certificate"))
                 (boost.release m_x509)
  else ret (Build m_x509).

(** [return m_x509.get();] *)
Definition raw (this : t) : Z := boost.get (m_x509 this).

(** [return name(boost::shared_ptr<X509_NAME>(]
    [X509_get_subject_name(m_x509.get()), name::null_deleter));] *)
Definition subject (this : t) : M name.t :=
  let* p := lift (openssl.X509_get_subject_name (boost.get (m_x509 this))) in
  let* tmp := boost.make p null_deleter in
  scoped (name.ctor_shared tmp) (boost.release tmp).

(** [return name(boost::shared_ptr<X509_NAME>(]
    [X509_get_issuer_name(m_x509.get()), name::null_deleter));] *)
Definition issuer (this : t) : M name.t :=
  let* p := lift (openssl.X509_get_issuer_name (boost.get (m_x509 this))) in
  let* tmp := boost.make p null_deleter in
  scoped (name.ctor_shared tmp) (boost.release tmp).

(** [return lhs.raw() == rhs.raw();] *)
Definition operator_eq (lhs rhs : t) : bool := raw lhs =? raw rhs.

(** [return lhs.raw() != rhs.raw();] *)
Definition operator_ne (lhs rhs : t) : bool := negb (raw lhs =? raw rhs).

End certificate.

(** ** Programs over handles *)

(** How the PEM loaders are reached: plain or trusted, from a stream or
    from a file. *)
Inductive pem_source :=
| FromBio (bio : bio_ptr.t)
| FromFile (file : Z).

Definition load_certificate (trusted : bool) (src : pem_source)
    (callback callback_arg : Z) : M certificate.t :=
  match src, trusted with
  | FromBio bio, false => certificate.from_certificate_bio bio callback callback_arg
  | FromBio bio, true => certificate.from_trusted_certificate_bio bio callback callback_arg
  | FromFile file, false => certificate.from_certificate_file file callback callback_arg
  | FromFile file, true => certificate.from_trusted_certificate_file file callback callback_arg
  end.

Definition decoder_of (trusted : bool) (src : pem_source) : pem_reader :=
  match src, trusted with
  | FromBio _, false => PEM_read_bio_X509
  | FromBio _, true => PEM_read_bio_X509_AUX
  | FromFile _, false => PEM_read_X509
  | FromFile _, true => PEM_read_X509_AUX
  end.

Definition source_addr (src : pem_source) : Z :=
  match src with
  | FromBio bio => bio_ptr.raw bio
  | FromFile file => file
  end.

(** What a client does with the copies of a handle: copy one (the implicit
    copy constructor copies the [shared_ptr] member) or let one go out of
    scope (the implicit destructor destroys the member). *)
Inductive sp_op :=
| OpCopy (s : shared_ptr)
| OpRelease (s : shared_ptr).

Definition op_target (o : sp_op) : shared_ptr :=
  match o with
  | OpCopy s => s
  | OpRelease s => s
  end.


(** A program can only copy or destroy a copy that exists: an operation on
    a handle whose control block is gone is not a step. *)
Definition step_op (o : sp_op) (w : world) : option world :=
  match w_blocks w !! sp_pn (op_target o) with
  | None => None
  | Some _ =>
      Some (match o with
            | OpCopy s => world_of (boost.copy s w)
            | OpRelease s => boost.release s w
            end)
  end.

Fixpoint run_ops (ops : list sp_op) (w : world) : option world :=
  match ops with
  | [] => Some w
  | o :: ops' =>
      match step_op o w with
      | Some w1 => run_ops ops' w1
      | None => None
      end
  end.



(** Control blocks are numbered below [w_next], hold at least one
    reference, and so do the blocks of the log. *)
Definition world_ok (w : world) : Prop :=
  (∀ b blk, w_blocks w !! b = Some blk →
            (b < w_next w)%nat ∧ (0 < blk_use blk)%nat) ∧
  (∀ e, e ∈ w_deleted w → (ev_block e < w_next w)%nat).

(** The handles the two classes build: the [shared_ptr] member of a
    wrapper that a public construction returned, with the deleter the
    constructor names. *)
Inductive constructed (w0 : world) : shared_ptr → deleter → world → Prop :=
| by_rsa_key_ctor k w :
    rsa_key.ctor w0 = Ok k w →
    constructed w0 (rsa_key.m_rsa k) RSA_free w
| by_certificate_ctor c w :
    certificate.ctor w0 = Ok c w →
    constructed w0 (certificate.m_x509 c) X509_free w
| by_certificate_ctor_raw x509 c w :
    certificate.ctor_raw x509 w0 = Ok c w →
    constructed w0 (certificate.m_x509 c) X509_free w
| by_certificate_load trusted src callback callback_arg c w :
    load_certificate trusted src callback callback_arg w0 = Ok c w →
    constructed w0 (certificate.m_x509 c) X509_free w.

(** The world after [shared_ptr<T>(p, d)] in [w], and the world after the
    exception of a null [p] has destroyed that [shared_ptr] again. *)
Definition made (p : Z) (d : deleter) (w : world) : world :=
  bump_next (set_blocks (insert (w_next w) (SpBlock p d 1)) w).

Definition unwound (p : Z) (d : deleter) (w : world) : world :=
  set_blocks (delete (w_next w))
    (boost.run_deleter d p
       (log_deleted (DelEvent (w_next w) d p) (set_errq [] (made p d w)))).

(** ** The special members the compiler declares

    Neither class declares a copy constructor or a destructor: the
    compiler's ones copy and destroy the one member. *)
Module rsa_key_special.

(** [rsa_key(const rsa_key& other) : m_rsa(other.m_rsa) {}] *)
Definition copy_ctor (other : rsa_key.t) : M rsa_key.t :=
  let* m_rsa := boost.copy (rsa_key.m_rsa other) in
  ret (rsa_key.Build m_rsa).

(** [~rsa_key()] destroys [m_rsa]. *)
Definition dtor (this : rsa_key.t) : M unit :=
  lift (λ w, (tt, boost.release (rsa_key.m_rsa this) w)).

End rsa_key_special.

Module certificate_special.

(** [certificate(const certificate& other) : m_x509(other.m_x509) {}] *)
Definition copy_ctor (other : certificate.t) : M certificate.t :=
  let* m_x509 := boost.copy (certificate.m_x509 other) in
  ret (certificate.Build m_x509).

(** [~certificate()] destroys [m_x509]. *)
Definition dtor (this : certificate.t) : M unit :=
  lift (λ w, (tt, boost.release (certificate.m_x509 this) w)).

End certificate_special.

(** ** Programs over both classes *)

(** The public constructions of the two headers. *)
Inductive construction :=
| NewRsaKey
| NewCertificate
| CertificateFromRaw (x509 : Z)
| LoadCertificate (trusted : bool) (src : pem_source)
                  (callback callback_arg : Z).

(** A construction, seen through the [shared_ptr] member of what it
    returns. *)
Definition construct (c : construction) : M shared_ptr :=
  match c with
  | NewRsaKey =>
      let* k := rsa_key.ctor in ret (rsa_key.m_rsa k)
  | NewCertificate =>
      let* x := certificate.ctor in ret (certificate.m_x509 x)
  | CertificateFromRaw x509 =>
      let* x := certificate.ctor_raw x509 in ret (certificate.m_x509 x)
  | LoadCertificate trusted src callback callback_arg =>
      let* x := load_certificate trusted src callback callback_arg in
      ret (certificate.m_x509 x)
  end.

(** The free function a construction binds. *)
Definition deleter_of (c : construction) : deleter :=
  match c with
  | NewRsaKey => RSA_free
  | _ => X509_free
  end.

(** Where the address of a construction comes from: the library call it
    makes, or its argument. *)
Definition acquire (c : construction) (w : world) : Z * world :=
  match c with
  | NewRsaKey => openssl.RSA_new w
  | NewCertificate => openssl.X509_new w
  | CertificateFromRaw x509 => (x509, w)
  | LoadCertificate trusted src callback callback_arg =>
      openssl.PEM_read (decoder_of trusted src) (source_addr src) NULL
                       callback callback_arg w
  end.

(** The constructions that allocate what they own. *)
Definition allocates (c : construction) : bool :=
  match c with
  | CertificateFromRaw _ => false
  | _ => true
  end.

(** One statement of a client program.  A construction may throw; the
    program catches the exception and goes on.  Copies, destructions,
    views and blinding need a handle that exists: a control block with the
    handle's address and the class's free function. *)
Inductive command :=
| Make (c : construction)
| Share (o : sp_op)
| View (of_issuer : bool) (c : certificate.t)
| Blind (on : bool) (k : rsa_key.t) (ctx : Z).

#[global] Instance deleter_eq_dec : EqDecision deleter.
Proof. solve_decision. Defined.

Definition handle_exists (s : shared_ptr) (d : deleter) (w : world) : bool :=
  match w_blocks w !! sp_pn s with
  | Some blk =>
      bool_decide (blk_ptr blk = sp_px s) && bool_decide (blk_del blk = d)
  | None => false
  end.

Definition exec (cmd : command) (w : world) : option world :=
  match cmd with
  | Make c => Some (world_of (construct c w))
  | Share o => step_op o w
  | View of_issuer c =>
      if handle_exists (certificate.m_x509 c) X509_free w
      then Some (world_of ((if of_issuer then certificate.issuer c
                            else certificate.subject c) w))
      else None
  | Blind on k ctx =>
      if handle_exists (rsa_key.m_rsa k) RSA_free w
      then Some (if on then world_of (rsa_key.enable_blinding k ctx w)
                 else world_of (rsa_key.disable_blinding k w))
      else None
  end.

Fixpoint run_program (cmds : list command) (w : world) : option world :=
  match cmds with
  | [] => Some w
  | cmd :: cmds' =>
      match exec cmd w with
      | Some w1 => run_program cmds' w1
      | None => None
      end
  end.

(** A program that takes no ownership of raw addresses. *)
Definition allocating (cmd : command) : bool :=
  match cmd with
  | Make c => allocates c
  | _ => true
  end.

(** What a control block owns: the object at its address and, for a
    certificate, the two names inside; a view owns nothing. *)
Definition footprint (w : world) (blk : sp_block) : gset Z :=
  match blk_del blk with
  | RSA_free => {[blk_ptr blk]}
  | X509_free =>
      match w_live w !! blk_ptr blk with
      | Some (ObjX509 s i) => {[blk_ptr blk; s; i]}
      | _ => {[blk_ptr blk]}
      end
  | null_deleter => ∅
  end.

(** The object a control block's free function expects at its address. *)
Definition owns_its_kind (w : world) (blk : sp_block) : Prop :=
  match blk_del blk with
  | RSA_free => ∃ b, w_live w !! blk_ptr blk = Some (ObjRSA b)
  | X509_free => ∃ s i, w_live w !! blk_ptr blk = Some (ObjX509 s i)
  | null_deleter => True
  end.

(** The ownership invariant of a world reached from [w0]: the objects of
    [w0] are as they were; every other live object is owned by a control
    block; what a control block owns is alive, of the kind its free
    function expects, not null, not an object of [w0] and not owned by
    another control block. *)
Record owned (w0 w : world) : Prop := Owned {
  owned_ok : world_ok w;
  owned_base : ∀ a, is_Some (w_live w0 !! a) → w_live w !! a = w_live w0 !! a;
  owned_cover : ∀ a, is_Some (w_live w !! a) →
                     is_Some (w_live w0 !! a) ∨
                     ∃ b blk, w_blocks w !! b = Some blk ∧ a ∈ footprint w blk;
  owned_live : ∀ b blk a, w_blocks w !! b = Some blk → a ∈ footprint w blk →
                          a ≠ NULL ∧ is_Some (w_live w !! a) ∧
                          w_live w0 !! a = None;
  owned_kind : ∀ b blk, w_blocks w !! b = Some blk → owns_its_kind w blk;
  owned_apart : ∀ b b' blk blk' a,
                  w_blocks w !! b = Some blk → w_blocks w !! b' = Some blk' →
                  a ∈ footprint w blk → a ∈ footprint w blk' → b = b'
}.

(** * Properties *)

(** ** Frame lemmas of the library model *)

Lemma next_outcome_frame w o w1 :
  openssl.next_outcome w = (o, w1) →
  w_live w1 = w_live w ∧ w_errq w1 = w_errq w ∧ w_trace w1 = w_trace w ∧
  w_blocks w1 = w_blocks w ∧ w_next w1 = w_next w ∧
  w_deleted w1 = w_deleted w.
Proof.
  unfold openssl.next_outcome. destruct (w_script w); intros [= <- <-]; done.
Qed.

Lemma fresh_addr_spec w :
  openssl.fresh_addr w ≠ NULL ∧ w_live w !! openssl.fresh_addr w = None.
Proof.
  unfold openssl.fresh_addr.
  pose proof (is_fresh ({[NULL]} ∪ dom (w_live w))) as Hf.
  split.
  - intros E. apply Hf. rewrite E. set_solver.
  - apply not_elem_of_dom. set_solver.
Qed.

Lemma alloc_spec o w p w1 :
  openssl.alloc o w = (p, w1) →
  p ≠ NULL ∧ w_live w !! p = None ∧ w_live w1 = <[p:=o]> (w_live w) ∧
  w_errq w1 = w_errq w ∧ w_script w1 = w_script w ∧ w_trace w1 = w_trace w ∧
  w_blocks w1 = w_blocks w ∧ w_next w1 = w_next w ∧
  w_deleted w1 = w_deleted w.
Proof.
  unfold openssl.alloc. intros [= <- <-].
  destruct (fresh_addr_spec w). done.
Qed.

Lemma alloc_X509_spec w p w1 :
  openssl.alloc_X509 w = (p, w1) →
  p ≠ NULL ∧ w_live w !! p = None ∧
  (∃ s i, w_live w1 !! p = Some (ObjX509 s i)) ∧
  w_errq w1 = w_errq w ∧ w_script w1 = w_script w ∧ w_trace w1 = w_trace w ∧
  w_blocks w1 = w_blocks w ∧ w_next w1 = w_next w ∧
  w_deleted w1 = w_deleted w.
Proof.
  unfold openssl.alloc_X509.
  destruct (openssl.alloc ObjX509_NAME w) as [s ws] eqn:Es.
  destruct (openssl.alloc ObjX509_NAME ws) as [i wi] eqn:Ei.
  intros Ex.
  apply alloc_spec in Es as (_ & _ & Ls & ? & ? & ? & ? & ? & ?).
  apply alloc_spec in Ei as (_ & _ & Li & ? & ? & ? & ? & ? & ?).
  apply alloc_spec in Ex as (Hp & Fp & Lx & ? & ? & ? & ? & ? & ?).
  split; [done|]. split.
  - rewrite Li, Ls in Fp.
    destruct (decide (i = p)) as [->|]; [by rewrite lookup_insert_eq in Fp|].
    rewrite lookup_insert_ne in Fp by done.
    destruct (decide (s = p)) as [->|]; [by rewrite lookup_insert_eq in Fp|].
    by rewrite lookup_insert_ne in Fp.
  - split; [exists s, i; rewrite Lx; apply lookup_insert_eq|].
    repeat split; congruence.
Qed.

Lemma run_deleter_frame d p w :
  w_errq (boost.run_deleter d p w) = w_errq w ∧
  w_script (boost.run_deleter d p w) = w_script w ∧
  w_blocks (boost.run_deleter d p w) = w_blocks w ∧
  w_next (boost.run_deleter d p w) = w_next w ∧
  w_deleted (boost.run_deleter d p w) = w_deleted w.
Proof.
  destruct d; simpl; [| |done].
  - unfold openssl.RSA_free. by case_decide.
  - unfold openssl.X509_free. case_decide; [done|].
    simpl. by destruct (w_live w !! p) as [[]|].
Qed.

(** ** Identity equality *)

Lemma raw_eqb_spec (a b : Z) :
  ((a =? b) = true ↔ a = b) ∧ (negb (a =? b) = true ↔ a ≠ b).
Proof.
  destruct (Z.eqb_spec a b); split; split; try done; intros; congruence.
Qed.

(** C2.  For every pair of [rsa_key] values, and for every pair of
    [certificate] values, [operator==] is true exactly when the two [raw()]
    addresses are equal and [operator!=] exactly when they differ.  The
    operators read the two addresses and nothing of the world: whatever
    lives at the addresses, two handles on different addresses are not
    equal, also when the objects stored there are the same. *)
Theorem equality_is_address_identity :
  (∀ lhs rhs : rsa_key.t,
      (rsa_key.operator_eq lhs rhs = true ↔ rsa_key.raw lhs = rsa_key.raw rhs) ∧
      (rsa_key.operator_ne lhs rhs = true ↔ rsa_key.raw lhs ≠ rsa_key.raw rhs) ∧
      ∀ w : world,
        w_live w !! rsa_key.raw lhs = w_live w !! rsa_key.raw rhs →
        rsa_key.raw lhs ≠ rsa_key.raw rhs →
        rsa_key.operator_eq lhs rhs = false) ∧
  (∀ lhs rhs : certificate.t,
      (certificate.operator_eq lhs rhs = true
       ↔ certificate.raw lhs = certificate.raw rhs) ∧
      (certificate.operator_ne lhs rhs = true
       ↔ certificate.raw lhs ≠ certificate.raw rhs) ∧
      ∀ w : world,
        w_live w !! certificate.raw lhs = w_live w !! certificate.raw rhs →
        certificate.raw lhs ≠ certificate.raw rhs →
        certificate.operator_eq lhs rhs = false).
Proof.
  split; intros lhs rhs.
  - unfold rsa_key.operator_eq, rsa_key.operator_ne.
    destruct (raw_eqb_spec (rsa_key.raw lhs) (rsa_key.raw rhs)) as [He Hn].
    repeat split; try apply He; try apply Hn.
    intros w _ Hd. apply Z.eqb_neq, Hd.
  - unfold certificate.operator_eq, certificate.operator_ne.
    destruct (raw_eqb_spec (certificate.raw lhs) (certificate.raw rhs))
      as [He Hn].
    repeat split; try apply He; try apply Hn.
    intros w _ Hd. apply Z.eqb_neq, Hd.
Qed.

(** ** Construction *)

Lemma to_bool_spec s : boost.to_bool s = true ↔ sp_px s ≠ NULL.
Proof.
  unfold boost.to_bool. destruct (Z.eqb_spec (sp_px s) NULL); simpl; split;
    intros; congruence.
Qed.

Lemma ctor_raw_spec x509 w :
  certificate.ctor_raw x509 w
  = if decide (x509 = NULL)
    then Throw (invalid_argument "certificate")
           (boost.release (SharedPtr NULL (w_next w)) (made NULL X509_free w))
    else Ok (certificate.Build (SharedPtr x509 (w_next w)))
           (made x509 X509_free w).
Proof.
  unfold certificate.ctor_raw, bind, boost.make, on_unwind, throw, ret.
  fold (made x509 X509_free w).
  case_decide as Hp.
  - by subst x509.
  - apply (to_bool_spec (SharedPtr x509 (w_next w))) in Hp. by rewrite Hp.
Qed.

(** C4.  [certificate(X509* x509)] given a null address throws
    [std::invalid_argument], which is not a cryptographic exception; given
    any other address it returns a certificate on that address, whose new
    control block holds the address with [X509_free] and one reference. *)
Theorem ctor_raw_null_is_invalid_argument (x509 : Z) (w : world) :
  match certificate.ctor_raw x509 w with
  | Throw e _ =>
      x509 = NULL ∧ e = invalid_argument "certificate" ∧
      ∀ queue, e ≠ cryptographic_exception queue
  | Ok c w' =>
      x509 ≠ NULL ∧ certificate.raw c = x509 ∧
      sp_pn (certificate.m_x509 c) = w_next w ∧
      w_blocks w' !! sp_pn (certificate.m_x509 c)
        = Some (SpBlock x509 X509_free 1) ∧
      w_deleted w' = w_deleted w
  end.
Proof.
  unfold certificate.ctor_raw, bind, boost.make, on_unwind, throw, ret.
  destruct (boost.to_bool (SharedPtr x509 (w_next w))) eqn:Eb; simpl.
  - apply to_bool_spec in Eb. simpl in Eb.
    repeat split; try done. apply lookup_insert_eq.
  - assert (x509 = NULL) as ->.
    { destruct (decide (x509 = NULL)) as [|Hn]; [done|].
      apply (to_bool_spec (SharedPtr x509 (w_next w))) in Hn. congruence. }
    repeat split; done.
Qed.

Lemma throw_error_if_not_make p d w :
  on_unwind (error.throw_error_if_not (boost.to_bool (SharedPtr p (w_next w))))
            (boost.release (SharedPtr p (w_next w))) (made p d w)
  = if decide (p = NULL)
    then Throw (cryptographic_exception (w_errq w)) (unwound p d w)
    else Ok tt (made p d w).
Proof.
  unfold on_unwind, error.throw_error_if_not.
  case_decide as Hp.
  - subst p. simpl. unfold unwound, boost.release. simpl.
    by rewrite lookup_insert_eq.
  - apply (to_bool_spec (SharedPtr p (w_next w))) in Hp. by rewrite Hp.
Qed.

(** A wrapper built from a temporary [shared_ptr<T>(p, d)] through a
    [ctor_shared]: the constructor's copy and the destruction of the
    temporary cancel out. *)
Lemma wrap_temporary {T} (build : shared_ptr → T) p d w :
  (let* tmp := boost.make p d in
   scoped (let* m := boost.copy tmp in
           on_unwind (error.throw_error_if_not (boost.to_bool m))
                     (boost.release m) >>
           ret (build m))
          (boost.release tmp)) w
  = if decide (p = NULL)
    then Throw (cryptographic_exception (w_errq w)) (unwound p d w)
    else Ok (build (SharedPtr p (w_next w))) (made p d w).
Proof.
  unfold bind, boost.make, scoped, boost.copy, on_unwind,
    error.throw_error_if_not, ret.
  fold (made p d w).
  case_decide as Hp.
  - subst p. simpl. unfold unwound, boost.release. simpl.
    rewrite lookup_alter_eq, lookup_insert_eq. simpl.
    rewrite lookup_insert_eq. simpl.
    unfold made, set_blocks, set_errq, bump_next. simpl.
    by rewrite insert_alter_eq, insert_insert_eq.
  - apply (to_bool_spec (SharedPtr p (w_next w))) in Hp. rewrite Hp.
    unfold boost.release. simpl.
    rewrite lookup_alter_eq, lookup_insert_eq. simpl.
    unfold made, set_blocks, bump_next. simpl.
    by rewrite insert_alter_eq, insert_insert_eq.
Qed.

(** C5.  A default-constructed [rsa_key] or [certificate] holds a non-null
    address at which nothing lived before the call and at which the new
    object lives after it, bound to the class's free function; or the
    constructor throws a cryptographic exception.  No other outcome exists,
    so no wrapper with a null [raw()] is returned. *)
Theorem default_ctor_fresh_or_cryptographic_exception (w : world) :
  match rsa_key.ctor w with
  | Ok k w' =>
      rsa_key.raw k ≠ NULL ∧
      w_live w !! rsa_key.raw k = None ∧
      w_live w' !! rsa_key.raw k = Some (ObjRSA false) ∧
      w_blocks w' !! sp_pn (rsa_key.m_rsa k)
        = Some (SpBlock (rsa_key.raw k) RSA_free 1)
  | Throw e _ => ∃ queue, e = cryptographic_exception queue
  end ∧
  match certificate.ctor w with
  | Ok c w' =>
      certificate.raw c ≠ NULL ∧
      w_live w !! certificate.raw c = None ∧
      (∃ s i, w_live w' !! certificate.raw c = Some (ObjX509 s i)) ∧
      w_blocks w' !! sp_pn (certificate.m_x509 c)
        = Some (SpBlock (certificate.raw c) X509_free 1)
  | Throw e _ => ∃ queue, e = cryptographic_exception queue
  end.
Proof.
  split.
  - unfold rsa_key.ctor, bind, lift, boost.make.
    destruct (openssl.RSA_new w) as [p w1] eqn:En.
    fold (made p RSA_free w1). rewrite throw_error_if_not_make.
    case_decide as Hp; [eauto|].
    unfold ret, rsa_key.raw; simpl.
    unfold openssl.RSA_new in En.
    destruct (openssl.next_outcome (log_call Call_RSA_new w)) as [[|c] w0] eqn:Eo.
    + apply next_outcome_frame in Eo as (Hl & _).
      apply alloc_spec in En as (_ & Hf & Hl1 & _).
      rewrite Hl in Hf. simpl in Hf.
      repeat split; try done.
      * rewrite Hl1. apply lookup_insert_eq.
      * apply lookup_insert_eq.
    + injection En as <- <-. done.
  - unfold certificate.ctor, bind, lift, boost.make.
    destruct (openssl.X509_new w) as [p w1] eqn:En.
    fold (made p X509_free w1). rewrite throw_error_if_not_make.
    case_decide as Hp; [eauto|].
    unfold ret, certificate.raw; simpl.
    unfold openssl.X509_new in En.
    destruct (openssl.next_outcome (log_call Call_X509_new w)) as [[|c] w0] eqn:Eo.
    + apply next_outcome_frame in Eo as (Hl & _).
      apply alloc_X509_spec in En as (_ & Hf & Hl1 & _).
      rewrite Hl in Hf. simpl in Hf.
      repeat split; try done.
      apply lookup_insert_eq.
    + injection En as <- <-. done.
Qed.

(** ** PEM loading *)

Lemma load_certificate_load trusted src callback callback_arg :
  load_certificate trusted src callback callback_arg
  = certificate.load (decoder_of trusted src) (source_addr src)
      callback callback_arg.
Proof. by destruct src, trusted. Qed.

Lemma load_spec f source callback callback_arg w p w1 :
  openssl.PEM_read f source NULL callback callback_arg w = (p, w1) →
  certificate.load f source callback callback_arg w
  = if decide (p = NULL)
    then Throw (cryptographic_exception (w_errq w1)) (unwound p X509_free w1)
    else Ok (certificate.Build (SharedPtr p (w_next w1))) (made p X509_free w1).
Proof.
  intros Hp. unfold certificate.load, certificate.ctor_shared.
  unfold bind at 1. unfold lift. rewrite Hp.
  apply (wrap_temporary certificate.Build).
Qed.

Lemma PEM_read_trace f source dest callback callback_arg w p w1 :
  openssl.PEM_read f source dest callback callback_arg w = (p, w1) →
  w_trace w1 = w_trace w ++ [Call_PEM_read f source dest callback callback_arg].
Proof.
  unfold openssl.PEM_read.
  destruct (openssl.next_outcome _) as [[|c] w0] eqn:Eo;
    apply next_outcome_frame in Eo as (_ & _ & Ht & _); simpl in Ht;
    intros Hr.
  - apply alloc_X509_spec in Hr as (_ & _ & _ & _ & _ & Ht1 & _). congruence.
  - injection Hr as <- <-. done.
Qed.

(** C3.  Every PEM certificate load (plain or trusted, from a stream or
    from a file) reaches its decoder once, with the source, a null
    destination, the callback and its argument.  If the decoder returns
    null, the load throws a cryptographic exception that carries the error
    queue the decoder left (the only other library call is [X509_free] on
    the null pointer, when the temporary is destroyed); otherwise it
    returns a certificate on the returned address, whose control block
    binds that address to [X509_free] with one reference. *)
Theorem pem_load_decodes_with_null_destination
    (trusted : bool) (src : pem_source) (callback callback_arg : Z)
    (w : world) :
  let decode :=
    Call_PEM_read (decoder_of trusted src) (source_addr src) NULL
                  callback callback_arg in
  let '(p, w1) :=
    openssl.PEM_read (decoder_of trusted src) (source_addr src) NULL
                     callback callback_arg w in
  match load_certificate trusted src callback callback_arg w with
  | Throw e w2 =>
      p = NULL ∧ e = cryptographic_exception (w_errq w1) ∧
      w_trace w2 = w_trace w ++ [decode; Call_X509_free NULL]
  | Ok c w2 =>
      p ≠ NULL ∧ certificate.raw c = p ∧
      w_blocks w2 !! sp_pn (certificate.m_x509 c)
        = Some (SpBlock p X509_free 1) ∧
      w_trace w2 = w_trace w ++ [decode]
  end.
Proof.
  intros decode.
  destruct (openssl.PEM_read _ _ _ _ _ w) as [p w1] eqn:Hp.
  rewrite load_certificate_load, (load_spec _ _ _ _ _ _ _ Hp).
  apply PEM_read_trace in Hp.
  case_decide as Hn.
  - subst p. repeat split.
    unfold unwound, boost.run_deleter, openssl.X509_free. simpl.
    rewrite Hp. by rewrite <- app_assoc.
  - repeat split; try done. apply lookup_insert_eq.
Qed.

(** ** Blinding *)

Lemma set_blinding_frame b rsa w :
  dom (w_live (openssl.set_blinding b rsa w)) = dom (w_live w) ∧
  (∀ a, w_live w !! a = Some ObjBN_CTX →
        w_live (openssl.set_blinding b rsa w) !! a = Some ObjBN_CTX) ∧
  w_trace (openssl.set_blinding b rsa w) = w_trace w ∧
  w_blocks (openssl.set_blinding b rsa w) = w_blocks w ∧
  w_next (openssl.set_blinding b rsa w) = w_next w ∧
  w_deleted (openssl.set_blinding b rsa w) = w_deleted w.
Proof.
  unfold openssl.set_blinding.
  destruct (w_live w !! rsa) as [[]|] eqn:El; try done.
  simpl. repeat split; try done.
  - apply dom_insert_lookup_L. by rewrite El.
  - intros a Ha. destruct (decide (rsa = a)) as [->|]; [congruence|].
    by rewrite lookup_insert_ne.
Qed.

(** C10.  [enable_blinding(ctx)] reaches the library once, with the key's
    address and the caller's [ctx] as it was given.  Whether the call
    succeeds or throws, no control block is created, changed or destroyed
    and no deleter runs: the wrapper keeps no reference to [ctx] and frees
    nothing.  No object of the library is allocated or freed, and a
    [BN_CTX] that lived at any address before the call lives there after
    it. *)
Theorem enable_blinding_borrows_ctx (k : rsa_key.t) (ctx : Z) (w : world) :
  let w' := world_of (rsa_key.enable_blinding k ctx w) in
  w_trace w' = w_trace w ++ [Call_RSA_blinding_on (rsa_key.raw k) ctx] ∧
  w_blocks w' = w_blocks w ∧
  w_next w' = w_next w ∧
  w_deleted w' = w_deleted w ∧
  dom (w_live w') = dom (w_live w) ∧
  (w_live w !! ctx = Some ObjBN_CTX → w_live w' !! ctx = Some ObjBN_CTX).
Proof.
  unfold rsa_key.enable_blinding, bind, lift, openssl.RSA_blinding_on,
    rsa_key.raw.
  destruct (openssl.next_outcome _) as [[|c] w0] eqn:Eo;
    apply next_outcome_frame in Eo as (Hl & _ & Ht & Hb & Hn & Hd);
    simpl in *.
  - destruct (set_blinding_frame true (boost.get (rsa_key.m_rsa k)) w0)
      as (Sd & Sc & St & Sb & Sn & Sdel).
    rewrite St, Sb, Sn, Sdel, Sd, Ht, Hb, Hn, Hd, Hl.
    repeat split; try done.
    intros Hc. apply Sc. by rewrite Hl.
  - rewrite Ht, Hb, Hn, Hd, Hl. repeat split; done.
Qed.

(** ** Views *)

Lemma subject_spec c w :
  certificate.subject c w
  = let p := match w_live w !! certificate.raw c with
             | Some (ObjX509 s _) => s
             | _ => NULL
             end in
    let w1 := log_call (Call_X509_get_subject_name (certificate.raw c)) w in
    if decide (p = NULL)
    then Throw (cryptographic_exception (w_errq w)) (unwound p null_deleter w1)
    else Ok (name.Build (SharedPtr p (w_next w))) (made p null_deleter w1).
Proof.
  unfold certificate.subject, name.ctor_shared.
  unfold bind at 1. unfold lift, openssl.X509_get_subject_name.
  exact (wrap_temporary name.Build _ null_deleter
           (log_call (Call_X509_get_subject_name (certificate.raw c)) w)).
Qed.

Lemma issuer_spec c w :
  certificate.issuer c w
  = let p := match w_live w !! certificate.raw c with
             | Some (ObjX509 _ i) => i
             | _ => NULL
             end in
    let w1 := log_call (Call_X509_get_issuer_name (certificate.raw c)) w in
    if decide (p = NULL)
    then Throw (cryptographic_exception (w_errq w)) (unwound p null_deleter w1)
    else Ok (name.Build (SharedPtr p (w_next w))) (made p null_deleter w1).
Proof.
  unfold certificate.issuer, name.ctor_shared.
  unfold bind at 1. unfold lift, openssl.X509_get_issuer_name.
  exact (wrap_temporary name.Build _ null_deleter
           (log_call (Call_X509_get_issuer_name (certificate.raw c)) w)).
Qed.

(** C9.  For every certificate [c]: when [c.subject()] has returned a view,
    the next call [c.subject()] returns a view too, on the same name
    address; likewise for [c.issuer()]. *)
Theorem successive_views_share_address (c : certificate.t) (w : world) :
  (∀ n1 w1, certificate.subject c w = Ok n1 w1 →
            ∃ n2 w2, certificate.subject c w1 = Ok n2 w2 ∧
                     name.raw n2 = name.raw n1) ∧
  (∀ n1 w1, certificate.issuer c w = Ok n1 w1 →
            ∃ n2 w2, certificate.issuer c w1 = Ok n2 w2 ∧
                     name.raw n2 = name.raw n1).
Proof.
  split; intros n1 w1.
  - rewrite subject_spec. simpl. case_decide as Hp; [done|].
    intros [= <- <-]. rewrite subject_spec. simpl.
    rewrite decide_False by done. eauto.
  - rewrite issuer_spec. simpl. case_decide as Hp; [done|].
    intros [= <- <-]. rewrite issuer_spec. simpl.
    rewrite decide_False by done. eauto.
Qed.

(** ** Lifetimes: copies and destructions *)

Lemma release_effect s w :
  w_next (boost.release s w) = w_next w ∧
  match w_blocks w !! sp_pn s with
  | Some (SpBlock p d (S (S n))) =>
      w_blocks (boost.release s w)
        = <[sp_pn s := SpBlock p d (S n)]> (w_blocks w) ∧
      w_deleted (boost.release s w) = w_deleted w ∧
      w_live (boost.release s w) = w_live w ∧
      w_trace (boost.release s w) = w_trace w
  | Some (SpBlock p d _) =>
      w_blocks (boost.release s w) = delete (sp_pn s) (w_blocks w) ∧
      w_deleted (boost.release s w) = w_deleted w ++ [DelEvent (sp_pn s) d p] ∧
      (d = null_deleter →
       w_live (boost.release s w) = w_live w ∧
       w_trace (boost.release s w) = w_trace w)
  | None => boost.release s w = w
  end.
Proof.
  unfold boost.release.
  destruct (w_blocks w !! sp_pn s) as [[p d [|[|n]]]|]; try done.
  - set (w0 := log_deleted _ _).
    destruct (run_deleter_frame d p w0) as (_ & _ & Hb & Hn & Hd).
    simpl. rewrite Hb, Hn, Hd. split; [done|]. split; [done|].
    split; [done|]. by intros ->.
  - set (w0 := log_deleted _ _).
    destruct (run_deleter_frame d p w0) as (_ & _ & Hb & Hn & Hd).
    simpl. rewrite Hb, Hn, Hd. split; [done|]. split; [done|].
    split; [done|]. by intros ->.
Qed.








(** ** The invariant of the control blocks *)

Lemma world_ok_init script : world_ok (init_world script).
Proof.
  split.
  - intros b blk. simpl. by rewrite lookup_empty.
  - intros e. simpl. by rewrite elem_of_nil.
Qed.

Lemma world_ok_frame w w1 :
  w_blocks w1 = w_blocks w → w_next w1 = w_next w →
  w_deleted w1 = w_deleted w → world_ok w → world_ok w1.
Proof. unfold world_ok. intros -> -> ->. done. Qed.

Lemma world_ok_made p d w : world_ok w → world_ok (made p d w).
Proof.
  intros [Hb Hd]. split; simpl.
  - intros b blk. rewrite lookup_insert. case_decide as E.
    + intros [= <-]. simpl. lia.
    + intros Hl. destruct (Hb _ _ Hl). lia.
  - intros e He. specialize (Hd _ He). lia.
Qed.

Lemma world_ok_copy s w : world_ok w → world_ok (world_of (boost.copy s w)).
Proof.
  intros [Hb Hd]. split; simpl; [|done].
  intros b blk. destruct (decide (sp_pn s = b)) as [<-|Hne].
  - rewrite lookup_alter_eq.
    destruct (w_blocks w !! sp_pn s) as [blk0|] eqn:El; simpl; [|done].
    intros [= <-]. destruct (Hb _ _ El). simpl. lia.
  - rewrite lookup_alter_ne by done. apply Hb.
Qed.

Lemma world_ok_release s w : world_ok w → world_ok (boost.release s w).
Proof.
  intros [Hb Hd].
  pose proof (release_effect s w) as [Hn Hr].
  destruct (w_blocks w !! sp_pn s) as [[p d u]|] eqn:El;
    [|by rewrite Hr].
  destruct (Hb _ _ El) as [Hlt _].
  assert (∀ m, (∀ b blk, m !! b = Some blk →
                         w_blocks w !! b = Some blk ∨
                         (b = sp_pn s ∧ (0 < blk_use blk)%nat)) →
               w_blocks (boost.release s w) = m →
               (w_deleted (boost.release s w) = w_deleted w ∨
                w_deleted (boost.release s w)
                = w_deleted w ++ [DelEvent (sp_pn s) d p]) →
               world_ok (boost.release s w)) as Hgen.
  { intros m Hm Hbm Hdm. split.
    - intros b blk. rewrite Hbm, Hn. intros Hl.
      destruct (Hm _ _ Hl) as [Ho|[-> Hu]]; [by apply Hb|done].
    - intros e. rewrite Hn. destruct Hdm as [->| ->]; [apply Hd|].
      rewrite elem_of_app, list_elem_of_singleton.
      intros [He| ->]; [by apply Hd|done]. }
  destruct u as [|[|n]].
  - destruct Hr as (Hr1 & Hr2 & _). eapply Hgen; [|exact Hr1|by right].
    intros b blk. rewrite lookup_delete. case_decide; [done|by left].
  - destruct Hr as (Hr1 & Hr2 & _). eapply Hgen; [|exact Hr1|by right].
    intros b blk. rewrite lookup_delete. case_decide; [done|by left].
  - destruct Hr as (Hr1 & Hr2 & _). eapply Hgen; [|exact Hr1|by left].
    intros b blk. rewrite lookup_insert. case_decide as E; [|by left].
    intros [= <-]. right. simpl. split; [done|lia].
Qed.

Lemma world_ok_run_ops ops :
  ∀ w w', world_ok w → run_ops ops w = Some w' → world_ok w'.
Proof.
  induction ops as [|o ops IH]; intros w w' Hok; cbn [run_ops].
  - by intros [= <-].
  - destruct (step_op o w) as [w1|] eqn:Hs; [|done].
    apply IH. unfold step_op in Hs.
    destruct (w_blocks w !! sp_pn (op_target o)); [|done].
    injection Hs as <-.
    destruct o; [by apply world_ok_copy|by apply world_ok_release].
Qed.


(** ** What the constructions leave behind *)

(** The fallible entry points that allocate touch neither the control
    blocks nor the log of deleter invocations. *)
Ltac allocating_call_frame spec :=
  destruct (openssl.next_outcome _) as [[|c] w0] eqn:Eo;
  apply next_outcome_frame in Eo as (_ & _ & _ & Hb & Hn & Hd);
  simpl in *; intros Hr;
  [ apply spec in Hr; destruct_and!; repeat split; congruence
  | injection Hr as <- <-; done ].

Lemma RSA_new_frame w p w1 :
  openssl.RSA_new w = (p, w1) →
  w_blocks w1 = w_blocks w ∧ w_next w1 = w_next w ∧
  w_deleted w1 = w_deleted w.
Proof. unfold openssl.RSA_new. allocating_call_frame alloc_spec. Qed.

Lemma X509_new_frame w p w1 :
  openssl.X509_new w = (p, w1) →
  w_blocks w1 = w_blocks w ∧ w_next w1 = w_next w ∧
  w_deleted w1 = w_deleted w.
Proof. unfold openssl.X509_new. allocating_call_frame alloc_X509_spec. Qed.

Lemma PEM_read_frame f source dest callback callback_arg w p w1 :
  openssl.PEM_read f source dest callback callback_arg w = (p, w1) →
  w_blocks w1 = w_blocks w ∧ w_next w1 = w_next w ∧
  w_deleted w1 = w_deleted w.
Proof. unfold openssl.PEM_read. allocating_call_frame alloc_X509_spec. Qed.

(** A construction that returns leaves exactly one new control block: it
    is numbered [w_next] of the world before, holds the returned address
    with the deleter of the class and one reference, and no deleter ran. *)
Lemma constructed_spec w0 h d w :
  constructed w0 h d w →
  ∃ w1, w = made (sp_px h) d w1 ∧ h = SharedPtr (sp_px h) (w_next w0) ∧
        sp_px h ≠ NULL ∧
        w_blocks w1 = w_blocks w0 ∧ w_next w1 = w_next w0 ∧
        w_deleted w1 = w_deleted w0.
Proof.
  destruct 1 as [k w Hc|c w Hc|x509 c w Hc|trusted src cb arg c w Hc].
  - unfold rsa_key.ctor, bind, lift, boost.make in Hc.
    destruct (openssl.RSA_new w0) as [p w1] eqn:En.
    fold (made p RSA_free w1) in Hc. rewrite throw_error_if_not_make in Hc.
    case_decide; [done|]. injection Hc as <- <-.
    apply RSA_new_frame in En as (Hb & Hn & Hd).
    exists w1. simpl. rewrite Hn. done.
  - unfold certificate.ctor, bind, lift, boost.make in Hc.
    destruct (openssl.X509_new w0) as [p w1] eqn:En.
    fold (made p X509_free w1) in Hc. rewrite throw_error_if_not_make in Hc.
    case_decide; [done|]. injection Hc as <- <-.
    apply X509_new_frame in En as (Hb & Hn & Hd).
    exists w1. simpl. rewrite Hn. done.
  - rewrite ctor_raw_spec in Hc.
    case_decide; [done|]. injection Hc as <- <-.
    exists w0. done.
  - rewrite load_certificate_load in Hc.
    destruct (openssl.PEM_read (decoder_of trusted src) (source_addr src)
                NULL cb arg w0) as [p w1] eqn:Hp.
    rewrite (load_spec _ _ _ _ _ _ _ Hp) in Hc.
    case_decide; [done|]. injection Hc as <- <-.
    apply PEM_read_frame in Hp as (Hb & Hn & Hd).
    exists w1. simpl. rewrite Hn. done.
Qed.

Lemma world_ok_constructed w0 h d w :
  world_ok w0 → constructed w0 h d w → world_ok w.
Proof.
  intros Hok Hc.
  destruct (constructed_spec _ _ _ _ Hc) as (w1 & -> & _ & _ & Hb & Hn & Hd).
  apply world_ok_made. by apply (world_ok_frame w0).
Qed.



(** Copies and destructions of a handle bound to the no-op deleter reach
    no library entry point and leave every object of the library alone. *)
Lemma run_ops_null_deleter b ops :
  ∀ w w',
    (∀ blk, w_blocks w !! b = Some blk → blk_del blk = null_deleter) →
    Forall (λ o, sp_pn (op_target o) = b) ops →
    run_ops ops w = Some w' →
    w_live w' = w_live w ∧ w_trace w' = w_trace w.
Proof.
  induction ops as [|o ops IH]; intros w w' Hnd Hall; cbn [run_ops].
  - by intros [= <-].
  - apply Forall_cons in Hall as [Ho Hall].
    unfold step_op. rewrite Ho.
    destruct (w_blocks w !! b) as [[p d u]|] eqn:El; [|done].
    pose proof (Hnd _ eq_refl) as Hd. simpl in Hd. subst d.
    intros Hr. apply IH in Hr; [|clear Hr|done].
    + destruct Hr as [-> ->]. destruct o as [s|s]; [done|].
      simpl in Ho. pose proof (release_effect s w) as [_ He].
      rewrite Ho, El in He.
      destruct u as [|[|n]]; [| |by destruct He as (_ & _ & -> & ->)];
        destruct He as (_ & _ & He); by destruct (He eq_refl) as [-> ->].
    + intros blk. destruct o as [s|s]; simpl in Ho.
      * simpl. rewrite Ho, lookup_alter_eq, El. by intros [= <-].
      * pose proof (release_effect s w) as [_ He]. rewrite Ho, El in He.
        destruct u as [|[|n]]; destruct He as (-> & _).
        -- by rewrite lookup_delete_eq.
        -- by rewrite lookup_delete_eq.
        -- rewrite lookup_insert_eq. by intros [= <-].
Qed.

(** C8.  The view that [subject()] or [issuer()] returns is a handle on
    the name's address whose control block binds the no-op deleter
    [name::null_deleter].  Whatever copies of the view are made and
    destroyed afterwards, all of them included, no library entry point is
    reached and the objects of the library are as they were before the
    accessor was called: the name inside the certificate is never freed
    through the view. *)
Theorem view_is_bound_to_null_deleter
    (c : certificate.t) (w : world) (n : name.t) (w1 : world)
    (ops : list sp_op) (w2 : world) :
  certificate.subject c w = Ok n w1 ∨ certificate.issuer c w = Ok n w1 →
  Forall (λ o, sp_pn (op_target o) = sp_pn (name.m_name n)) ops →
  run_ops ops w1 = Some w2 →
  w_blocks w1 !! sp_pn (name.m_name n)
  = Some (SpBlock (name.raw n) null_deleter 1) ∧
  w_live w2 = w_live w ∧
  w_trace w2 = w_trace w1.
Proof.
  intros Hview Hall Hrun.
  assert (w_blocks w1 !! sp_pn (name.m_name n)
          = Some (SpBlock (name.raw n) null_deleter 1) ∧
          w_live w1 = w_live w) as [Hblk Hlive].
  { destruct Hview as [Hv|Hv];
      [rewrite subject_spec in Hv|rewrite issuer_spec in Hv];
      simpl in Hv; case_decide; try done; injection Hv as <- <-;
      (split; [apply lookup_insert_eq|done]). }
  split; [done|].
  assert (∀ blk, w_blocks w1 !! sp_pn (name.m_name n) = Some blk →
                 blk_del blk = null_deleter) as Hnd.
  { intros blk. rewrite Hblk. by intros [= <-]. }
  destruct (run_ops_null_deleter _ _ _ _ Hnd Hall Hrun) as [-> ->].
  done.
Qed.

(** ** The public interface of rsa_key *)

(** C7, as the code has it.  The public members that create an [rsa_key]
    are [generate], the default constructor and the copy constructor, and
    none of them receives an already-allocated key.  The one member that
    does, the constructor from a [boost::shared_ptr<RSA>], is private. *)
Theorem rsa_key_ownership_constructor_is_private :
  filter (λ m, is_public m && creates_rsa_key m = true) rsa_key_members
  = [ Member "generate" Public StaticMember
        [T_int; T_unsigned_long; T_generate_callback_type; T_void_ptr]
        T_rsa_key;
      Member "rsa_key" Public Constructor [] T_rsa_key;
      Member "rsa_key" Public Constructor [T_const_rsa_key_ref] T_rsa_key ] ∧
  filter (λ m, receives_allocated_key m = true) rsa_key_members
  = [ Member "rsa_key" Private Constructor [T_shared_ptr_RSA] T_rsa_key ].
Proof. split; reflexivity. Qed.

(** C7 as stated fails: no public member of [rsa_key] creates a key by
    receiving an already-allocated one. *)
Lemma rsa_key_no_public_ownership_constructor :
  ¬ ∃ m, m ∈ rsa_key_members ∧ is_public m = true ∧
         creates_rsa_key m = true ∧ receives_allocated_key m = true.
Proof.
  intros (m & Hin & Hpub & _ & Hrecv).
  unfold rsa_key_members in Hin.
  repeat (apply elem_of_cons in Hin as [->|Hin]; [discriminate|]).
  by apply elem_of_nil in Hin.
Qed.

(** ** The theorems at concrete inputs *)

(** Two keys built one after the other hold equal objects at different
    addresses, and are not equal. *)
Lemma equality_is_address_identity_witness :
  ∃ k1 k2 w,
    (let* a := rsa_key.ctor in let* b := rsa_key.ctor in ret (a, b))
      (init_world []) = Ok (k1, k2) w ∧
    w_live w !! rsa_key.raw k1 = w_live w !! rsa_key.raw k2 ∧
    rsa_key.operator_eq k1 k2 = false.
Proof.
  set (k1 := rsa_key.Build (SharedPtr 1 0)).
  set (k2 := rsa_key.Build (SharedPtr 2 1)).
  set (w := world_of
              ((let* a := rsa_key.ctor in let* b := rsa_key.ctor in ret (a, b))
                 (init_world []))).
  assert (w_live w !! rsa_key.raw k1 = w_live w !! rsa_key.raw k2) as Hsame
    by (vm_compute; reflexivity).
  assert (rsa_key.raw k1 ≠ rsa_key.raw k2) as Hdiff by (vm_compute; discriminate).
  exists k1, k2, w. split; [vm_compute; reflexivity|]. split; [exact Hsame|].
  exact (proj2 (proj2 (proj1 equality_is_address_identity k1 k2))
           w Hsame Hdiff).
Defined.

(** A certificate is built and its subject is viewed; the view is copied
    and both copies are destroyed. *)
Lemma view_is_bound_to_null_deleter_witness :
  ∃ c w n w1 w2,
    certificate.ctor (init_world []) = Ok c w ∧
    certificate.subject c w = Ok n w1 ∧
    run_ops [OpCopy (name.m_name n); OpRelease (name.m_name n);
             OpRelease (name.m_name n)] w1 = Some w2 ∧
    w_blocks w2 !! sp_pn (name.m_name n) = None ∧
    w_live w2 = w_live w ∧ w_trace w2 = w_trace w1.
Proof.
  set (c := certificate.Build (SharedPtr 3 0)).
  set (w := world_of (certificate.ctor (init_world []))).
  set (n := name.Build (SharedPtr 1 1)).
  set (w1 := world_of (certificate.subject c w)).
  set (ops := [OpCopy (name.m_name n); OpRelease (name.m_name n);
               OpRelease (name.m_name n)]).
  set (w2 := default w1 (run_ops ops w1)).
  assert (certificate.subject c w = Ok n w1) as Hview
    by (vm_compute; reflexivity).
  assert (Forall (λ o, sp_pn (op_target o) = sp_pn (name.m_name n)) ops)
    as Hall by (repeat constructor).
  assert (run_ops ops w1 = Some w2) as Hrun by (vm_compute; reflexivity).
  exists c, w, n, w1, w2.
  split; [vm_compute; reflexivity|]. split; [exact Hview|].
  split; [exact Hrun|]. split; [vm_compute; reflexivity|].
  exact (proj2 (view_is_bound_to_null_deleter c w n w1 ops w2
                  (or_introl Hview) Hall Hrun)).
Defined.

(** A certificate is built and its subject is viewed twice. *)
Lemma successive_views_share_address_witness :
  ∃ c w n1 w1 n2 w2,
    certificate.ctor (init_world []) = Ok c w ∧
    certificate.subject c w = Ok n1 w1 ∧
    certificate.subject c w1 = Ok n2 w2 ∧
    name.raw n2 = name.raw n1.
Proof.
  set (c := certificate.Build (SharedPtr 3 0)).
  set (w := world_of (certificate.ctor (init_world []))).
  set (n1 := name.Build (SharedPtr 1 1)).
  set (w1 := world_of (certificate.subject c w)).
  assert (certificate.subject c w = Ok n1 w1) as Hview
    by (vm_compute; reflexivity).
  destruct (proj1 (successive_views_share_address c w) n1 w1 Hview)
    as (n2 & w2 & Hagain & Hsame).
  exists c, w, n1, w1, n2, w2.
  split; [vm_compute; reflexivity|]. done.
Defined.

(** A key is built, the caller allocates a [BN_CTX] at address 9 and
    enables blinding with it. *)
Lemma enable_blinding_borrows_ctx_witness :
  ∃ k w,
    rsa_key.ctor (init_world []) = Ok k w ∧
    w_live (world_of (rsa_key.enable_blinding k 9
                        (set_live (insert 9 ObjBN_CTX) w))) !! 9
    = Some ObjBN_CTX.
Proof.
  set (k := rsa_key.Build (SharedPtr 1 0)).
  set (w := world_of (rsa_key.ctor (init_world []))).
  exists k, w. split; [vm_compute; reflexivity|].
  refine (proj2 (proj2 (proj2 (proj2 (proj2
            (enable_blinding_borrows_ctx k 9
               (set_live (insert 9 ObjBN_CTX) w)))))) _).
  vm_compute; reflexivity.
Defined.

(** * Further properties of the two headers *)

(** ** What a construction does to the world *)

Lemma run_deleter_null_live d w :
  w_live (boost.run_deleter d NULL w) = w_live w.
Proof.
  destruct d; [| |done].
  - unfold boost.run_deleter, openssl.RSA_free. by case_decide.
  - unfold boost.run_deleter, openssl.X509_free. by case_decide.
Qed.

(** The world after a [shared_ptr<T>(NULL, d)] has been built in [w] and
    destroyed again, whatever happened to the error queue in between. *)
Lemma destroyed_null_fields d q w :
  let w' := set_blocks (delete (w_next w))
              (boost.run_deleter d NULL
                 (log_deleted (DelEvent (w_next w) d NULL)
                    (set_errq q (made NULL d w)))) in
  w_blocks w' = delete (w_next w) (w_blocks w) ∧
  w_next w' = S (w_next w) ∧
  w_deleted w' = w_deleted w ++ [DelEvent (w_next w) d NULL] ∧
  w_live w' = w_live w.
Proof.
  set (w0 := log_deleted _ _). simpl.
  destruct (run_deleter_frame d NULL w0) as (_ & _ & Hb & Hn & Hd).
  rewrite Hb, Hn, Hd, run_deleter_null_live. simpl.
  by rewrite delete_insert_eq.
Qed.

Lemma unwound_null_fields d w :
  w_blocks (unwound NULL d w) = delete (w_next w) (w_blocks w) ∧
  w_next (unwound NULL d w) = S (w_next w) ∧
  w_deleted (unwound NULL d w) = w_deleted w ++ [DelEvent (w_next w) d NULL] ∧
  w_live (unwound NULL d w) = w_live w.
Proof. apply (destroyed_null_fields d [] w). Qed.

Lemma rsa_key_ctor_spec w p w1 :
  openssl.RSA_new w = (p, w1) →
  rsa_key.ctor w
  = if decide (p = NULL)
    then Throw (cryptographic_exception (w_errq w1)) (unwound p RSA_free w1)
    else Ok (rsa_key.Build (SharedPtr p (w_next w1))) (made p RSA_free w1).
Proof.
  intros En. unfold rsa_key.ctor, bind, lift, boost.make. rewrite En.
  fold (made p RSA_free w1). rewrite throw_error_if_not_make.
  by case_decide.
Qed.

Lemma certificate_ctor_spec w p w1 :
  openssl.X509_new w = (p, w1) →
  certificate.ctor w
  = if decide (p = NULL)
    then Throw (cryptographic_exception (w_errq w1)) (unwound p X509_free w1)
    else Ok (certificate.Build (SharedPtr p (w_next w1)))
           (made p X509_free w1).
Proof.
  intros En. unfold certificate.ctor, bind, lift, boost.make. rewrite En.
  fold (made p X509_free w1). rewrite throw_error_if_not_make.
  by case_decide.
Qed.

Lemma acquire_frame c w p w1 :
  acquire c w = (p, w1) →
  w_blocks w1 = w_blocks w ∧ w_next w1 = w_next w ∧
  w_deleted w1 = w_deleted w.
Proof.
  destruct c; simpl.
  - apply RSA_new_frame.
  - apply X509_new_frame.
  - by intros [= <- <-].
  - apply PEM_read_frame.
Qed.

(** A construction that returns: the address is the acquired one, it is
    not null, and the one change to the control blocks is the new block. *)
Lemma construct_ok c w s w' :
  construct c w = Ok s w' →
  ∃ w1, acquire c w = (sp_px s, w1) ∧ sp_px s ≠ NULL ∧
        sp_pn s = w_next w ∧ w' = made (sp_px s) (deleter_of c) w1.
Proof.
  destruct (acquire c w) as [p w1] eqn:Ha.
  pose proof (acquire_frame _ _ _ _ Ha) as (_ & Hn & _).
  destruct c as [| |x509|trusted src cb arg]; simpl in *.
  - unfold bind. rewrite (rsa_key_ctor_spec _ _ _ Ha).
    case_decide; [done|]. intros [= <- <-]. exists w1. simpl.
    by rewrite Hn.
  - unfold bind. rewrite (certificate_ctor_spec _ _ _ Ha).
    case_decide; [done|]. intros [= <- <-]. exists w1. simpl.
    by rewrite Hn.
  - injection Ha as <- <-.
    unfold bind. rewrite ctor_raw_spec.
    case_decide; [done|]. intros [= <- <-]. by exists w.
  - unfold bind. rewrite load_certificate_load, (load_spec _ _ _ _ _ _ _ Ha).
    case_decide; [done|]. intros [= <- <-]. exists w1. simpl.
    by rewrite Hn.
Qed.

(** A construction that throws: the acquired address was null, the control
    block built around it is gone again, its deleter ran once, on the null
    pointer, and the library's objects are as the acquisition left them. *)
Lemma construct_throw c w e w' :
  construct c w = Throw e w' →
  ∃ w1, acquire c w = (NULL, w1) ∧
        w_blocks w' = delete (w_next w) (w_blocks w) ∧
        w_next w' = S (w_next w) ∧
        w_deleted w' = w_deleted w ++ [DelEvent (w_next w) (deleter_of c) NULL] ∧
        w_live w' = w_live w1 ∧
        e = match c with
            | CertificateFromRaw _ => invalid_argument "certificate"
            | _ => cryptographic_exception (w_errq w1)
            end.
Proof.
  destruct (acquire c w) as [p w1] eqn:Ha.
  pose proof (acquire_frame _ _ _ _ Ha) as (Hb & Hn & Hd).
  destruct c as [| |x509|trusted src cb arg]; simpl in *.
  - unfold bind. rewrite (rsa_key_ctor_spec _ _ _ Ha).
    case_decide as Hp; [|done]. subst p. intros [= <- <-].
    exists w1. destruct (unwound_null_fields RSA_free w1) as (-> & -> & -> & ->).
    by rewrite Hb, Hn, Hd.
  - unfold bind. rewrite (certificate_ctor_spec _ _ _ Ha).
    case_decide as Hp; [|done]. subst p. intros [= <- <-].
    exists w1. destruct (unwound_null_fields X509_free w1) as (-> & -> & -> & ->).
    by rewrite Hb, Hn, Hd.
  - injection Ha as <- <-.
    unfold bind. rewrite ctor_raw_spec.
    case_decide as Hp; [|done]. subst x509. intros [= <- <-].
    exists w. unfold boost.release. simpl. rewrite lookup_insert_eq.
    destruct (destroyed_null_fields X509_free (w_errq w) w)
      as (F1 & F2 & F3 & F4).
    split; [done|]. split; [exact F1|]. split; [exact F2|].
    split; [exact F3|]. split; [exact F4|done].
  - unfold bind. rewrite load_certificate_load, (load_spec _ _ _ _ _ _ _ Ha).
    case_decide as Hp; [|done]. subst p. intros [= <- <-].
    exists w1. destruct (unwound_null_fields X509_free w1) as (-> & -> & -> & ->).
    by rewrite Hb, Hn, Hd.
Qed.

Lemma world_ok_next_unused w : world_ok w → w_blocks w !! w_next w = None.
Proof.
  intros [Hb _]. destruct (w_blocks w !! w_next w) as [blk|] eqn:El; [|done].
  destruct (Hb _ _ El). lia.
Qed.

Lemma acquire_null c w w1 :
  acquire c w = (NULL, w1) → w_live w1 = w_live w.
Proof.
  destruct c as [| |x509|trusted src cb arg]; simpl.
  - unfold openssl.RSA_new.
    destruct (openssl.next_outcome _) as [[|code] w0] eqn:Eo;
      apply next_outcome_frame in Eo as (Hl & _); intros Ha.
    + by apply alloc_spec in Ha as (Hn & _).
    + by injection Ha as <-.
  - unfold openssl.X509_new.
    destruct (openssl.next_outcome _) as [[|code] w0] eqn:Eo;
      apply next_outcome_frame in Eo as (Hl & _); intros Ha.
    + by apply alloc_X509_spec in Ha as (Hn & _).
    + by injection Ha as <-.
  - by intros [= _ <-].
  - unfold openssl.PEM_read.
    destruct (openssl.next_outcome _) as [[|code] w0] eqn:Eo;
      apply next_outcome_frame in Eo as (Hl & _); intros Ha.
    + by apply alloc_X509_spec in Ha as (Hn & _).
    + by injection Ha as <-.
Qed.

Lemma acquire_fresh c w p w1 :
  allocates c = true → acquire c w = (p, w1) → p ≠ NULL →
  w_live w !! p = None.
Proof.
  destruct c as [| |x509|trusted src cb arg]; simpl; intros Hal; [| |done|].
  - unfold openssl.RSA_new.
    destruct (openssl.next_outcome _) as [[|code] w0] eqn:Eo;
      apply next_outcome_frame in Eo as (Hl & _); intros Ha Hp.
    + apply alloc_spec in Ha as (_ & Hf & _). by rewrite Hl in Hf.
    + by injection Ha as <-.
  - unfold openssl.X509_new.
    destruct (openssl.next_outcome _) as [[|code] w0] eqn:Eo;
      apply next_outcome_frame in Eo as (Hl & _); intros Ha Hp.
    + apply alloc_X509_spec in Ha as (_ & Hf & _). by rewrite Hl in Hf.
    + by injection Ha as <-.
  - unfold openssl.PEM_read.
    destruct (openssl.next_outcome _) as [[|code] w0] eqn:Eo;
      apply next_outcome_frame in Eo as (Hl & _); intros Ha Hp.
    + apply alloc_X509_spec in Ha as (_ & Hf & _). by rewrite Hl in Hf.
    + by injection Ha as <-.
Qed.

(** ** Failed constructions *)



(** ** Fresh handles *)

(** X2.  A key that the default constructor returns is not equal to any
    key whose object is alive when the constructor is called; the same
    holds for a certificate returned by the default constructor or by a
    PEM loader.  Two default-constructed handles that are both alive are
    therefore different under [operator!=]. *)
Theorem fresh_handle_differs_from_live_ones :
  (∀ (k1 k2 : rsa_key.t) (w w' : world),
      is_Some (w_live w !! rsa_key.raw k1) →
      rsa_key.ctor w = Ok k2 w' →
      rsa_key.operator_ne k1 k2 = true ∧ rsa_key.operator_eq k1 k2 = false) ∧
  (∀ (c1 c2 : certificate.t) (w w' : world),
      is_Some (w_live w !! certificate.raw c1) →
      certificate.ctor w = Ok c2 w' ∨
      (∃ trusted src callback callback_arg,
          load_certificate trusted src callback callback_arg w = Ok c2 w') →
      certificate.operator_ne c1 c2 = true ∧
      certificate.operator_eq c1 c2 = false).
Proof.
  assert (∀ c s w w' a,
             allocates c = true → is_Some (w_live w !! a) →
             construct c w = Ok s w' → (a =? sp_px s) = false) as Hgen.
  { intros c s w w' a Hal Hlive Hc.
    destruct (construct_ok _ _ _ _ Hc) as (w1 & Ha & Hp & _).
    pose proof (acquire_fresh _ _ _ _ Hal Ha Hp) as Hf.
    apply Z.eqb_neq. intros ->. rewrite Hf in Hlive. by destruct Hlive. }
  split.
  - intros k1 k2 w w' Hlive Hc.
    unfold rsa_key.operator_ne, rsa_key.operator_eq.
    rewrite (Hgen NewRsaKey (rsa_key.m_rsa k2) w w'); [done..|].
    simpl. unfold bind. by rewrite Hc.
  - intros c1 c2 w w' Hlive Hc.
    unfold certificate.operator_ne, certificate.operator_eq.
    destruct Hc as [Hc|(trusted & src & cb & arg & Hc)].
    + rewrite (Hgen NewCertificate (certificate.m_x509 c2) w w'); [done..|].
      simpl. unfold bind. by rewrite Hc.
    + rewrite (Hgen (LoadCertificate trusted src cb arg)
                 (certificate.m_x509 c2) w w'); [done..|].
      simpl. unfold bind. by rewrite Hc.
Qed.

Lemma fresh_handle_differs_from_live_ones_witness :
  ∃ k1 w k2 w',
    rsa_key.ctor (init_world []) = Ok k1 w ∧
    rsa_key.ctor w = Ok k2 w' ∧
    rsa_key.operator_ne k1 k2 = true.
Proof.
  set (k1 := rsa_key.Build (SharedPtr 1 0)).
  set (w := world_of (rsa_key.ctor (init_world []))).
  set (k2 := rsa_key.Build (SharedPtr 2 1)).
  set (w' := world_of (rsa_key.ctor w)).
  assert (rsa_key.ctor w = Ok k2 w') as Hc by (vm_compute; reflexivity).
  assert (is_Some (w_live w !! rsa_key.raw k1)) as Hlive
    by (vm_compute; eauto).
  exists k1, w, k2, w'. split; [vm_compute; reflexivity|].
  split; [exact Hc|].
  exact (proj1 (proj1 fresh_handle_differs_from_live_ones k1 k2 w w' Hlive Hc)).
Defined.

(** ** Copies *)

Lemma alter_add_ref (blocks : gmap nat sp_block) b p d n :
  blocks !! b = Some (SpBlock p d n) →
  alter boost.add_ref b blocks = <[b := SpBlock p d (S n)]> blocks.
Proof.
  intros Hb. apply map_eq. intros i.
  destruct (decide (b = i)) as [<-|Hne].
  - by rewrite lookup_alter_eq, lookup_insert_eq, Hb.
  - by rewrite lookup_alter_ne, lookup_insert_ne.
Qed.

Lemma release_after_copy s w p d n :
  w_blocks w !! sp_pn s = Some (SpBlock p d (S n)) →
  boost.release s (world_of (boost.copy s w)) = w.
Proof.
  intros Hb. unfold boost.release. simpl.
  rewrite lookup_alter_eq, Hb. simpl.
  destruct w as [live errq script trace blocks next deleted].
  unfold set_blocks. simpl in *. f_equal.
  rewrite insert_alter_eq. by apply insert_id.
Qed.

(** X3.  The copy of a key or certificate that exists compares equal to
    its original: it holds the same [shared_ptr], and the use count of the
    one control block goes up by one; no other control block changes and
    no library call is made.  Destroying the copy again gives back exactly
    the world from before the copy. *)
Theorem copy_shares_and_destruction_restores :
  (∀ (k : rsa_key.t) (w : world) p d n,
      w_blocks w !! sp_pn (rsa_key.m_rsa k) = Some (SpBlock p d (S n)) →
      ∃ k' w1,
        rsa_key_special.copy_ctor k w = Ok k' w1 ∧
        rsa_key.operator_eq k k' = true ∧
        rsa_key.m_rsa k' = rsa_key.m_rsa k ∧
        w_blocks w1
        = <[sp_pn (rsa_key.m_rsa k) := SpBlock p d (S (S n))]> (w_blocks w) ∧
        w_trace w1 = w_trace w ∧
        rsa_key_special.dtor k' w1 = Ok tt w) ∧
  (∀ (c : certificate.t) (w : world) p d n,
      w_blocks w !! sp_pn (certificate.m_x509 c) = Some (SpBlock p d (S n)) →
      ∃ c' w1,
        certificate_special.copy_ctor c w = Ok c' w1 ∧
        certificate.operator_eq c c' = true ∧
        certificate.m_x509 c' = certificate.m_x509 c ∧
        w_blocks w1
        = <[sp_pn (certificate.m_x509 c) := SpBlock p d (S (S n))]>
            (w_blocks w) ∧
        w_trace w1 = w_trace w ∧
        certificate_special.dtor c' w1 = Ok tt w).
Proof.
  split.
  - intros k w p d n Hb.
    exists k, (world_of (boost.copy (rsa_key.m_rsa k) w)).
    split; [by destruct k|].
    split; [apply Z.eqb_refl|]. split; [done|].
    split; [simpl; by apply alter_add_ref|].
    split; [done|].
    unfold rsa_key_special.dtor, lift.
    by rewrite (release_after_copy _ _ _ _ _ Hb).
  - intros c w p d n Hb.
    exists c, (world_of (boost.copy (certificate.m_x509 c) w)).
    split; [by destruct c|].
    split; [apply Z.eqb_refl|]. split; [done|].
    split; [simpl; by apply alter_add_ref|].
    split; [done|].
    unfold certificate_special.dtor, lift.
    by rewrite (release_after_copy _ _ _ _ _ Hb).
Qed.

Lemma copy_shares_and_destruction_restores_witness :
  ∃ k w k' w1,
    rsa_key.ctor (init_world []) = Ok k w ∧
    rsa_key_special.copy_ctor k w = Ok k' w1 ∧
    rsa_key.operator_eq k k' = true ∧
    rsa_key_special.dtor k' w1 = Ok tt w.
Proof.
  set (k := rsa_key.Build (SharedPtr 1 0)).
  set (w := world_of (rsa_key.ctor (init_world []))).
  assert (w_blocks w !! sp_pn (rsa_key.m_rsa k) = Some (SpBlock 1 RSA_free 1))
    as Hb by (vm_compute; reflexivity).
  destruct (proj1 copy_shares_and_destruction_restores k w _ _ _ Hb)
    as (k' & w1 & Hc & He & _ & _ & _ & Hd).
  exists k, w, k', w1. split; [vm_compute; reflexivity|]. done.
Defined.

(** ** The private constructors *)

(** X4.  The private constructors from a [boost::shared_ptr] are
    exception safe.  Given a [shared_ptr] whose control block exists, the
    constructor either returns a wrapper on that very [shared_ptr], with
    the use count raised by one, or (exactly when the stored pointer is
    null) throws, and then every control block has the use count it had
    and no deleter has run. *)
Theorem shared_constructor_is_exception_safe :
  (∀ (s : shared_ptr) (w : world) p d n,
      w_blocks w !! sp_pn s = Some (SpBlock p d (S n)) →
      match rsa_key.ctor_shared s w with
      | Ok k w' =>
          sp_px s ≠ NULL ∧ rsa_key.m_rsa k = s ∧
          w_blocks w' = <[sp_pn s := SpBlock p d (S (S n))]> (w_blocks w) ∧
          w_deleted w' = w_deleted w
      | Throw e w' =>
          sp_px s = NULL ∧ w_blocks w' = w_blocks w ∧
          w_deleted w' = w_deleted w ∧ w_live w' = w_live w ∧
          w_trace w' = w_trace w
      end) ∧
  (∀ (s : shared_ptr) (w : world) p d n,
      w_blocks w !! sp_pn s = Some (SpBlock p d (S n)) →
      match certificate.ctor_shared s w with
      | Ok c w' =>
          sp_px s ≠ NULL ∧ certificate.m_x509 c = s ∧
          w_blocks w' = <[sp_pn s := SpBlock p d (S (S n))]> (w_blocks w) ∧
          w_deleted w' = w_deleted w
      | Throw e w' =>
          sp_px s = NULL ∧ w_blocks w' = w_blocks w ∧
          w_deleted w' = w_deleted w ∧ w_live w' = w_live w ∧
          w_trace w' = w_trace w
      end).
Proof.
  split; intros s w p d n Hb.
  - unfold rsa_key.ctor_shared, bind, boost.copy, on_unwind,
      error.throw_error_if_not, ret.
    destruct (boost.to_bool s) eqn:Eb.
    + apply to_bool_spec in Eb. simpl.
      by rewrite (alter_add_ref _ _ _ _ _ Hb).
    + assert (sp_px s = NULL) as Hp.
      { destruct (decide (sp_px s = NULL)) as [|Hn]; [done|].
        apply to_bool_spec in Hn. congruence. }
      unfold boost.release. simpl.
      rewrite lookup_alter_eq, Hb. simpl.
      split; [done|]. rewrite insert_alter_eq. by rewrite (insert_id _ _ _ Hb).
  - unfold certificate.ctor_shared, bind, boost.copy, on_unwind,
      error.throw_error_if_not, ret.
    destruct (boost.to_bool s) eqn:Eb.
    + apply to_bool_spec in Eb. simpl.
      by rewrite (alter_add_ref _ _ _ _ _ Hb).
    + assert (sp_px s = NULL) as Hp.
      { destruct (decide (sp_px s = NULL)) as [|Hn]; [done|].
        apply to_bool_spec in Hn. congruence. }
      unfold boost.release. simpl.
      rewrite lookup_alter_eq, Hb. simpl.
      split; [done|]. rewrite insert_alter_eq. by rewrite (insert_id _ _ _ Hb).
Qed.

Lemma shared_constructor_is_exception_safe_witness :
  ∃ k w k' w',
    rsa_key.ctor (init_world []) = Ok k w ∧
    rsa_key.ctor_shared (rsa_key.m_rsa k) w = Ok k' w' ∧
    w_blocks w' !! sp_pn (rsa_key.m_rsa k) = Some (SpBlock 1 RSA_free 2).
Proof.
  set (k := rsa_key.Build (SharedPtr 1 0)).
  set (w := world_of (rsa_key.ctor (init_world []))).
  set (w' := world_of (rsa_key.ctor_shared (rsa_key.m_rsa k) w)).
  assert (w_blocks w !! sp_pn (rsa_key.m_rsa k) = Some (SpBlock 1 RSA_free 1))
    as Hb by (vm_compute; reflexivity).
  assert (rsa_key.ctor_shared (rsa_key.m_rsa k) w = Ok k w') as Hc
    by (vm_compute; reflexivity).
  pose proof (proj1 shared_constructor_is_exception_safe
                (rsa_key.m_rsa k) w _ _ _ Hb) as Hs.
  rewrite Hc in Hs. destruct Hs as (_ & _ & Hs & _).
  exists k, w, k, w'. split; [vm_compute; reflexivity|]. split; [exact Hc|].
  rewrite Hs. apply lookup_insert_eq.
Defined.

(** ** Views and the lifetime of their certificate *)

Lemma X509_free_frees_names x s i w :
  x ≠ NULL → w_live w !! x = Some (ObjX509 s i) →
  ∀ a, w_live (openssl.X509_free x w) !! a
       = if decide (a = x ∨ a = s ∨ a = i) then None else w_live w !! a.
Proof.
  intros Hx Hl a. unfold openssl.X509_free.
  rewrite decide_False by done. simpl. rewrite Hl. simpl.
  case_decide as Ha.
  - destruct (decide (a = x)) as [->|]; [apply lookup_delete_eq|].
    rewrite lookup_delete_ne by done.
    destruct (decide (a = s)) as [->|]; [apply lookup_delete_eq|].
    rewrite lookup_delete_ne by done.
    destruct Ha as [Ha|[Ha| ->]]; [done..|]. apply lookup_delete_eq.
  - rewrite !lookup_delete_ne; [done|naive_solver..].
Qed.

(** X5.  A view does not own its certificate.  [subject()] and [issuer()]
    leave the control block of the certificate as it is, with the use
    count it had.  So when the only copy of the certificate is destroyed
    while the view exists, [X509_free] runs on the certificate: the control
    block of the view is still there, on a name that lives no more. *)
Theorem view_does_not_keep_certificate_alive
    (c : certificate.t) (w : world) (s i : Z) (n : name.t) (w1 : world) :
  world_ok w →
  certificate.raw c ≠ NULL →
  w_blocks w !! sp_pn (certificate.m_x509 c)
  = Some (SpBlock (certificate.raw c) X509_free 1) →
  w_live w !! certificate.raw c = Some (ObjX509 s i) →
  certificate.subject c w = Ok n w1 ∨ certificate.issuer c w = Ok n w1 →
  w_blocks w1 !! sp_pn (certificate.m_x509 c)
  = Some (SpBlock (certificate.raw c) X509_free 1) ∧
  ∃ w2,
    certificate_special.dtor c w1 = Ok tt w2 ∧
    w_deleted w2
    = w_deleted w ++ [DelEvent (sp_pn (certificate.m_x509 c)) X509_free
                               (certificate.raw c)] ∧
    w_blocks w2 !! sp_pn (name.m_name n)
    = Some (SpBlock (name.raw n) null_deleter 1) ∧
    w_live w2 !! name.raw n = None.
Proof.
  intros Hok Hx Hb Hl Hview.
  assert (sp_pn (certificate.m_x509 c) ≠ w_next w) as Hne.
  { destruct Hok as [Hlt _]. destruct (Hlt _ _ Hb). lia. }
  assert (∃ p call, p ≠ NULL ∧ (p = s ∨ p = i) ∧
                    n = name.Build (SharedPtr p (w_next w)) ∧
                    w1 = made p null_deleter (log_call call w))
    as (p & call & Hp & Hsi & -> & ->).
  { destruct Hview as [Hv|Hv];
      [rewrite subject_spec in Hv|rewrite issuer_spec in Hv];
      simpl in Hv; rewrite Hl in Hv; case_decide; try done;
      injection Hv as <- <-; eexists _, _; eauto. }
  set (w1 := made p null_deleter (log_call call w)).
  assert (w_blocks w1 !! sp_pn (certificate.m_x509 c)
          = Some (SpBlock (certificate.raw c) X509_free 1)) as Hb1.
  { simpl. by rewrite lookup_insert_ne. }
  split; [exact Hb1|].
  eexists. split; [reflexivity|].
  pose proof (release_effect (certificate.m_x509 c) w1) as [_ Hr].
  rewrite Hb1 in Hr. destruct Hr as (Hrb & Hrd & _).
  rewrite Hrb, Hrd.
  split; [done|]. split.
  - rewrite lookup_delete_ne by done. apply lookup_insert_eq.
  - unfold boost.release. rewrite Hb1.
    set (w0 := log_deleted _ w1).
    change (w_live (openssl.X509_free (certificate.raw c) w0) !! p = None).
    rewrite (X509_free_frees_names _ s i w0 Hx Hl).
    rewrite decide_True; [done|]. destruct Hsi; auto.
Qed.

Lemma view_does_not_keep_certificate_alive_witness :
  ∃ c w n w1 w2,
    certificate.ctor (init_world []) = Ok c w ∧
    certificate.subject c w = Ok n w1 ∧
    certificate_special.dtor c w1 = Ok tt w2 ∧
    w_blocks w2 !! sp_pn (name.m_name n)
    = Some (SpBlock (name.raw n) null_deleter 1) ∧
    w_live w2 !! name.raw n = None.
Proof.
  set (c := certificate.Build (SharedPtr 3 0)).
  set (w := world_of (certificate.ctor (init_world []))).
  set (n := name.Build (SharedPtr 1 1)).
  set (w1 := world_of (certificate.subject c w)).
  assert (certificate.subject c w = Ok n w1) as Hview
    by (vm_compute; reflexivity).
  assert (certificate.raw c ≠ NULL) as Hx by (vm_compute; discriminate).
  assert (w_blocks w !! sp_pn (certificate.m_x509 c)
          = Some (SpBlock (certificate.raw c) X509_free 1)) as Hb
    by (vm_compute; reflexivity).
  assert (w_live w !! certificate.raw c = Some (ObjX509 1 2)) as Hl
    by (vm_compute; reflexivity).
  assert (world_ok w) as Hok.
  { apply (world_ok_constructed (init_world []) (certificate.m_x509 c)
             X509_free); [apply world_ok_init|].
    apply by_certificate_ctor. vm_compute; reflexivity. }
  destruct (view_does_not_keep_certificate_alive c w 1 2 n w1
              Hok Hx Hb Hl (or_introl Hview))
    as (_ & w2 & Hd & _ & Hbn & Hln).
  exists c, w, n, w1, w2. split; [vm_compute; reflexivity|]. done.
Defined.

(** ** Taking ownership of a raw address *)



(** ** Blinding off *)

(** X7.  [disable_blinding()] never throws.  It reaches the library once,
    with [RSA_blinding_off] on the key's address; it changes no control
    block, runs no deleter, leaves the error queue alone and neither
    allocates nor frees an object. *)
Theorem disable_blinding_never_throws (k : rsa_key.t) (w : world) :
  ∃ w',
    rsa_key.disable_blinding k w = Ok tt w' ∧
    w_trace w' = w_trace w ++ [Call_RSA_blinding_off (rsa_key.raw k)] ∧
    w_blocks w' = w_blocks w ∧
    w_next w' = w_next w ∧
    w_deleted w' = w_deleted w ∧
    w_errq w' = w_errq w ∧
    dom (w_live w') = dom (w_live w).
Proof.
  eexists. split; [reflexivity|].
  set (w0 := log_call (Call_RSA_blinding_off (boost.get (rsa_key.m_rsa k))) w).
  destruct (set_blinding_frame false (boost.get (rsa_key.m_rsa k)) w0)
    as (Sd & _ & St & Sb & Sn & Sdel).
  rewrite St, Sb, Sn, Sdel, Sd.
  repeat split; try done.
  unfold openssl.set_blinding.
  by destruct (w_live w0 !! boost.get (rsa_key.m_rsa k)) as [[]|].
Qed.

(** ** The algebra of the comparison operators *)

(** X8.  On keys and on certificates, [operator==] is an equivalence
    relation and [operator!=] is its negation. *)
Theorem equality_is_an_equivalence :
  (∀ a b c : rsa_key.t,
      rsa_key.operator_eq a a = true ∧
      rsa_key.operator_eq a b = rsa_key.operator_eq b a ∧
      (rsa_key.operator_eq a b = true → rsa_key.operator_eq b c = true →
       rsa_key.operator_eq a c = true) ∧
      rsa_key.operator_ne a b = negb (rsa_key.operator_eq a b)) ∧
  (∀ a b c : certificate.t,
      certificate.operator_eq a a = true ∧
      certificate.operator_eq a b = certificate.operator_eq b a ∧
      (certificate.operator_eq a b = true →
       certificate.operator_eq b c = true →
       certificate.operator_eq a c = true) ∧
      certificate.operator_ne a b = negb (certificate.operator_eq a b)).
Proof.
  split; intros a b c.
  - unfold rsa_key.operator_eq, rsa_key.operator_ne.
    split; [apply Z.eqb_refl|]. split; [apply Z.eqb_sym|]. split; [|done].
    rewrite !Z.eqb_eq. congruence.
  - unfold certificate.operator_eq, certificate.operator_ne.
    split; [apply Z.eqb_refl|]. split; [apply Z.eqb_sym|]. split; [|done].
    rewrite !Z.eqb_eq. congruence.
Qed.

Lemma equality_is_an_equivalence_witness :
  rsa_key.operator_eq (rsa_key.Build (SharedPtr 1 0))
                      (rsa_key.Build (SharedPtr 1 2)) = true.
Proof.
  set (a := rsa_key.Build (SharedPtr 1 0)).
  set (b := rsa_key.Build (SharedPtr 1 1)).
  set (c := rsa_key.Build (SharedPtr 1 2)).
  exact (proj1 (proj2 (proj2 (proj1 equality_is_an_equivalence a b c)))
           eq_refl eq_refl).
Defined.

(** ** The ownership invariant *)

Lemma footprint_ext w w' blk blk' :
  blk_ptr blk' = blk_ptr blk → blk_del blk' = blk_del blk →
  (match w_live w' !! blk_ptr blk, w_live w !! blk_ptr blk with
   | Some (ObjX509 s i), Some (ObjX509 s' i') => s = s' ∧ i = i'
   | Some (ObjX509 _ _), _ | _, Some (ObjX509 _ _) => False
   | _, _ => True
   end) →
  footprint w' blk' = footprint w blk.
Proof.
  unfold footprint. intros -> ->. destruct (blk_del blk); try done.
  destruct (w_live w' !! blk_ptr blk) as [[]|],
           (w_live w !! blk_ptr blk) as [[]|]; try done.
  by intros [-> ->].
Qed.

Lemma footprint_same_live w w' blk blk' :
  blk_ptr blk' = blk_ptr blk → blk_del blk' = blk_del blk →
  w_live w' !! blk_ptr blk = w_live w !! blk_ptr blk →
  footprint w' blk' = footprint w blk.
Proof.
  intros Hp Hd Hl. apply footprint_ext; try done. rewrite Hl.
  by destruct (w_live w !! blk_ptr blk) as [[]|].
Qed.

(** The address of an owning control block is part of what it owns. *)
Lemma footprint_ptr w blk :
  blk_del blk ≠ null_deleter → blk_ptr blk ∈ footprint w blk.
Proof.
  unfold footprint. destruct (blk_del blk); [| |done]; intros _.
  - set_solver.
  - destruct (w_live w !! blk_ptr blk) as [[]|]; set_solver.
Qed.

Lemma footprint_null_deleter w blk a :
  a ∈ footprint w blk → blk_del blk ≠ null_deleter.
Proof.
  unfold footprint. destruct (blk_del blk); try done; set_solver.
Qed.

Lemma owned_init w0 : w_blocks w0 = ∅ → world_ok w0 → owned w0 w0.
Proof.
  intros He Hok. split; try done.
  - by left.
  - intros b blk a. by rewrite He, lookup_empty.
  - intros b blk. by rewrite He, lookup_empty.
  - intros b b' blk blk' a. by rewrite He, lookup_empty.
Qed.

(** Owners are unchanged when the control blocks keep their addresses and
    deleters (use counts may change) and the objects stay, up to the state
    of a key that is not an object of [w0]. *)
Lemma owned_same w0 w w' :
  owned w0 w → world_ok w' →
  (∀ b, (λ blk, (blk_ptr blk, blk_del blk)) <$> w_blocks w' !! b
        = (λ blk, (blk_ptr blk, blk_del blk)) <$> w_blocks w !! b) →
  (∀ a, w_live w' !! a = w_live w !! a ∨
        (w_live w0 !! a = None ∧
         ∃ f f', w_live w !! a = Some (ObjRSA f) ∧
                 w_live w' !! a = Some (ObjRSA f'))) →
  owned w0 w'.
Proof.
  intros [Hok Hbase Hcover Hlive Hkind Hapart] Hok' Hblocks Hobj.
  assert (∀ a, is_Some (w_live w' !! a) ↔ is_Some (w_live w !! a)) as Hsome.
  { intros a. destruct (Hobj a) as [->|(_ & f & f' & -> & ->)]; [done|].
    split; eauto. }
  assert (∀ b blk', w_blocks w' !! b = Some blk' →
                    ∃ blk, w_blocks w !! b = Some blk ∧
                           blk_ptr blk' = blk_ptr blk ∧
                           blk_del blk' = blk_del blk ∧
                           footprint w' blk' = footprint w blk) as Hback.
  { intros b blk' Hb'. specialize (Hblocks b). rewrite Hb' in Hblocks.
    destruct (w_blocks w !! b) as [blk|] eqn:Hb; [|done].
    injection Hblocks as Hp Hd. exists blk. repeat split; try done.
    apply footprint_ext; try done.
    destruct (Hobj (blk_ptr blk)) as [->|(_ & f & f' & -> & ->)]; [|done].
    by destruct (w_live w !! blk_ptr blk) as [[]|]. }
  assert (∀ b blk, w_blocks w !! b = Some blk →
                   ∃ blk', w_blocks w' !! b = Some blk' ∧
                           footprint w' blk' = footprint w blk) as Hforth.
  { intros b blk Hb. specialize (Hblocks b). rewrite Hb in Hblocks.
    destruct (w_blocks w' !! b) as [blk'|] eqn:Hb'; [|done].
    exists blk'. split; [done|].
    destruct (Hback _ _ Hb') as (blk0 & Hb0 & _ & _ & Hf). congruence. }
  split; try done.
  - intros a Ha. destruct (Hobj a) as [->|(Hn & _)]; [by apply Hbase|].
    rewrite Hn in Ha. by destruct Ha.
  - intros a Ha. apply Hsome in Ha.
    destruct (Hcover a Ha) as [|(b & blk & Hb & Hin)]; [by left|right].
    destruct (Hforth _ _ Hb) as (blk' & Hb' & Hf).
    exists b, blk'. by rewrite Hf.
  - intros b blk' a Hb' Hin.
    destruct (Hback _ _ Hb') as (blk & Hb & _ & _ & Hf). rewrite Hf in Hin.
    destruct (Hlive _ _ _ Hb Hin) as (? & ? & ?).
    repeat split; try done. by apply Hsome.
  - intros b blk' Hb'.
    destruct (Hback _ _ Hb') as (blk & Hb & Hp & Hd & _).
    specialize (Hkind _ _ Hb). unfold owns_its_kind in *.
    rewrite Hd, Hp.
    destruct (Hobj (blk_ptr blk)) as [->|(_ & f & f' & Hl & ->)]; [done|].
    rewrite Hl in Hkind.
    destruct (blk_del blk); [by eexists| |done].
    by destruct Hkind as (s & i & ?).
  - intros b1 b2 blk1' blk2' a Hb1' Hb2' Hin1 Hin2.
    destruct (Hback _ _ Hb1') as (blk1 & Hb1 & _ & _ & Hf1).
    destruct (Hback _ _ Hb2') as (blk2 & Hb2 & _ & _ & Hf2).
    rewrite Hf1 in Hin1. rewrite Hf2 in Hin2. eauto.
Qed.

(** A new control block that owns fresh objects. *)
Lemma owned_new_block w0 w w1 p d :
  owned w0 w →
  w_blocks w1 = w_blocks w → w_next w1 = w_next w →
  w_deleted w1 = w_deleted w →
  (∀ a, is_Some (w_live w !! a) → w_live w1 !! a = w_live w !! a) →
  (∀ a, is_Some (w_live w1 !! a) →
        is_Some (w_live w !! a) ∨ a ∈ footprint w1 (SpBlock p d 1)) →
  (∀ a, a ∈ footprint w1 (SpBlock p d 1) →
        a ≠ NULL ∧ is_Some (w_live w1 !! a) ∧ w_live w !! a = None) →
  owns_its_kind w1 (SpBlock p d 1) →
  owned w0 (made p d w1).
Proof.
  intros [Hok Hbase Hcover Hlive Hkind Hapart] Hb1 Hn1 Hd1 Hold Hnew Hfresh Hk.
  assert (world_ok w1) as Hok1 by by apply (world_ok_frame w).
  assert (∀ b blk, w_blocks w !! b = Some blk → b ≠ w_next w1) as Hlt.
  { intros b blk Hb. destruct Hok as [Hlt _]. destruct (Hlt _ _ Hb). lia. }
  assert (∀ b blk, w_blocks w !! b = Some blk →
                   footprint (made p d w1) blk = footprint w blk) as Hfoot.
  { intros b blk Hb.
    destruct (decide (blk_del blk = null_deleter)) as [Hd|Hd].
    - unfold footprint. by rewrite Hd.
    - apply footprint_same_live; try done. simpl.
      apply Hold. apply (Hlive b blk); [done|]. by apply footprint_ptr. }
  assert (footprint (made p d w1) (SpBlock p d 1)
          = footprint w1 (SpBlock p d 1)) as Hfnew by done.
  assert (∀ b blk, w_blocks (made p d w1) !! b = Some blk →
                   (b = w_next w1 ∧ blk = SpBlock p d 1) ∨
                   (b ≠ w_next w1 ∧ w_blocks w !! b = Some blk)) as Hcases.
  { intros b blk. simpl. rewrite Hb1.
    destruct (decide (w_next w1 = b)) as [<-|Hne].
    - rewrite lookup_insert_eq. intros [= <-]. by left.
    - rewrite lookup_insert_ne by done. by right. }
  split.
  - by apply world_ok_made.
  - intros a Ha. simpl. rewrite Hold; [by apply Hbase|].
    rewrite (Hbase _ Ha). done.
  - intros a Ha. simpl in Ha.
    destruct (Hnew _ Ha) as [Hw|Hin].
    + destruct (Hcover _ Hw) as [|(b & blk & Hb & Hin)]; [by left|right].
      exists b, blk. split.
      * simpl. rewrite Hb1, lookup_insert_ne; [done|].
        intros E. by apply (Hlt _ _ Hb).
      * by rewrite (Hfoot _ _ Hb).
    + right. exists (w_next w1), (SpBlock p d 1). split; [|done].
      simpl. apply lookup_insert_eq.
  - intros b blk a Hb Hin.
    destruct (Hcases _ _ Hb) as [[-> ->]|[Hne Hbo]].
    + destruct (Hfresh _ Hin) as (? & ? & Hnone). repeat split; try done.
      destruct (w_live w0 !! a) eqn:E0; [|done].
      rewrite <- (Hbase a), Hnone in E0; [done|eauto].
    + rewrite (Hfoot _ _ Hbo) in Hin.
      destruct (Hlive _ _ _ Hbo Hin) as (? & Hs & ?).
      repeat split; try done. simpl. by rewrite (Hold _ Hs).
  - intros b blk Hb.
    destruct (Hcases _ _ Hb) as [[-> ->]|[Hne Hbo]]; [done|].
    specialize (Hkind _ _ Hbo). unfold owns_its_kind in *.
    destruct (decide (blk_del blk = null_deleter)) as [Hd|Hd];
      [by rewrite Hd|].
    simpl. rewrite Hold; [done|].
    apply (Hlive b blk); [done|]. by apply footprint_ptr.
  - intros b1 b2 blk1 blk2 a Hbl1 Hbl2 Hin1 Hin2.
    destruct (Hcases _ _ Hbl1) as [[-> ->]|[Hne1 Hbo1]],
             (Hcases _ _ Hbl2) as [[-> ->]|[Hne2 Hbo2]]; try done.
    + rewrite (Hfoot _ _ Hbo2) in Hin2.
      destruct (Hfresh _ Hin1) as (_ & _ & Hnone).
      destruct (Hlive _ _ _ Hbo2 Hin2) as (_ & Hs & _).
      rewrite Hnone in Hs. by destruct Hs.
    + rewrite (Hfoot _ _ Hbo1) in Hin1.
      destruct (Hfresh _ Hin2) as (_ & _ & Hnone).
      destruct (Hlive _ _ _ Hbo1 Hin1) as (_ & Hs & _).
      rewrite Hnone in Hs. by destruct Hs.
    + rewrite (Hfoot _ _ Hbo1) in Hin1. rewrite (Hfoot _ _ Hbo2) in Hin2.
      eauto.
Qed.

(** The last reference to a control block goes: what it owned is freed. *)
Lemma owned_drop_block w0 w w' b blk :
  owned w0 w →
  w_blocks w !! b = Some blk →
  world_ok w' →
  w_blocks w' = delete b (w_blocks w) →
  (∀ a, w_live w' !! a
        = if decide (a ∈ footprint w blk) then None else w_live w !! a) →
  owned w0 w'.
Proof.
  intros [Hok Hbase Hcover Hlive Hkind Hapart] Hb Hok' Hblocks Hfreed.
  assert (∀ b' blk', w_blocks w' !! b' = Some blk' →
                     b' ≠ b ∧ w_blocks w !! b' = Some blk') as Hback.
  { intros b' blk'. rewrite Hblocks.
    destruct (decide (b = b')) as [<-|Hne].
    - by rewrite lookup_delete_eq.
    - by rewrite lookup_delete_ne. }
  assert (∀ b' blk' a, b' ≠ b → w_blocks w !! b' = Some blk' →
                       a ∈ footprint w blk' →
                       w_live w' !! a = w_live w !! a) as Hkeep.
  { intros b' blk' a Hne Hb' Hin. rewrite Hfreed.
    rewrite decide_False; [done|]. intros Hin'. apply Hne. eauto. }
  assert (∀ b' blk', b' ≠ b → w_blocks w !! b' = Some blk' →
                     footprint w' blk' = footprint w blk') as Hfoot.
  { intros b' blk' Hne Hb'.
    destruct (decide (blk_del blk' = null_deleter)) as [Hd|Hd].
    - unfold footprint. by rewrite Hd.
    - apply footprint_same_live; try done.
      apply (Hkeep b' blk'); try done. by apply footprint_ptr. }
  split; try done.
  - intros a Ha. rewrite Hfreed. rewrite decide_False; [by apply Hbase|].
    intros Hin. destruct (Hlive _ _ _ Hb Hin) as (_ & _ & Hnone).
    rewrite Hnone in Ha. by destruct Ha.
  - intros a Ha. rewrite Hfreed in Ha. case_decide as Hin.
    { by destruct Ha. }
    destruct (Hcover _ Ha) as [|(b' & blk' & Hb' & Hin')]; [by left|right].
    assert (b' ≠ b) as Hne by (intros ->; congruence).
    exists b', blk'. split.
    + by rewrite Hblocks, lookup_delete_ne.
    + by rewrite (Hfoot _ _ Hne Hb').
  - intros b' blk' a Hb' Hin.
    destruct (Hback _ _ Hb') as [Hne Hbo].
    rewrite (Hfoot _ _ Hne Hbo) in Hin.
    destruct (Hlive _ _ _ Hbo Hin) as (? & ? & ?).
    repeat split; try done. by rewrite (Hkeep _ _ _ Hne Hbo Hin).
  - intros b' blk' Hb'.
    destruct (Hback _ _ Hb') as [Hne Hbo].
    specialize (Hkind _ _ Hbo). unfold owns_its_kind in *.
    destruct (decide (blk_del blk' = null_deleter)) as [Hd|Hd];
      [by rewrite Hd|].
    rewrite (Hkeep b' blk'); try done. by apply footprint_ptr.
  - intros b1 b2 blk1 blk2 a Hbl1 Hbl2 Hin1 Hin2.
    destruct (Hback _ _ Hbl1) as [Hne1 Hbo1].
    destruct (Hback _ _ Hbl2) as [Hne2 Hbo2].
    rewrite (Hfoot _ _ Hne1 Hbo1) in Hin1.
    rewrite (Hfoot _ _ Hne2 Hbo2) in Hin2. eauto.
Qed.

Lemma elem_of_triple (a p s i : Z) :
  a ∈ ({[p; s; i]} : gset Z) ↔ a = p ∨ a = s ∨ a = i.
Proof. rewrite !elem_of_union, !elem_of_singleton. tauto. Qed.

(** The free function of a control block frees what the block owns. *)
Lemma run_deleter_frees_footprint w w1 p d n :
  owns_its_kind w (SpBlock p d n) →
  (d ≠ null_deleter → p ≠ NULL) →
  w_live w1 = w_live w →
  ∀ a, w_live (boost.run_deleter d p w1) !! a
       = if decide (a ∈ footprint w (SpBlock p d n)) then None
         else w_live w !! a.
Proof.
  unfold owns_its_kind, footprint. simpl. intros Hkind Hp Hl a.
  destruct d; simpl.
  - unfold openssl.RSA_free. rewrite decide_False by by apply Hp.
    simpl. rewrite Hl. case_decide as Hin.
    + apply elem_of_singleton in Hin as ->. apply lookup_delete_eq.
    + rewrite lookup_delete_ne; [done|]. set_solver.
  - destruct Hkind as (s & i & Hx).
    rewrite (X509_free_frees_names p s i w1); [|by apply Hp|congruence].
    rewrite Hx, Hl.
    repeat case_decide; try done; rewrite elem_of_triple in *; tauto.
  - unfold name_null_deleter. rewrite Hl. by rewrite decide_False by set_solver.
Qed.

(** ** Allocation *)

Lemma alloc_X509_detail w p w1 :
  openssl.alloc_X509 w = (p, w1) →
  ∃ s i,
    s ≠ NULL ∧ i ≠ NULL ∧ p ≠ NULL ∧ s ≠ i ∧ s ≠ p ∧ i ≠ p ∧
    w_live w !! s = None ∧ w_live w !! i = None ∧ w_live w !! p = None ∧
    w_live w1
    = <[p:=ObjX509 s i]> (<[i:=ObjX509_NAME]> (<[s:=ObjX509_NAME]> (w_live w))).
Proof.
  unfold openssl.alloc_X509.
  destruct (openssl.alloc ObjX509_NAME w) as [s ws] eqn:Es.
  destruct (openssl.alloc ObjX509_NAME ws) as [i wi] eqn:Ei.
  intros Ex.
  apply alloc_spec in Es as (Hs & Fs & Ls & _).
  apply alloc_spec in Ei as (Hi & Fi & Li & _).
  apply alloc_spec in Ex as (Hp & Fp & Lx & _).
  rewrite Ls in Fi. rewrite Li, Ls in Fp.
  assert (s ≠ i) as Hsi by (intros ->; by rewrite lookup_insert_eq in Fi).
  assert (i ≠ p) as Hip by (intros ->; by rewrite lookup_insert_eq in Fp).
  rewrite lookup_insert_ne in Fi by done.
  rewrite lookup_insert_ne in Fp by done.
  assert (s ≠ p) as Hsp by (intros ->; by rewrite lookup_insert_eq in Fp).
  rewrite lookup_insert_ne in Fp by done.
  exists s, i. repeat split; try done. by rewrite Lx, Li, Ls.
Qed.

(** What an allocating construction acquires is fresh, and is what the
    new control block owns. *)
Lemma acquire_owned c w p w1 :
  allocates c = true → acquire c w = (p, w1) → p ≠ NULL →
  (∀ a, is_Some (w_live w !! a) → w_live w1 !! a = w_live w !! a) ∧
  (∀ a, is_Some (w_live w1 !! a) →
        is_Some (w_live w !! a) ∨
        a ∈ footprint w1 (SpBlock p (deleter_of c) 1)) ∧
  (∀ a, a ∈ footprint w1 (SpBlock p (deleter_of c) 1) →
        a ≠ NULL ∧ is_Some (w_live w1 !! a) ∧ w_live w !! a = None) ∧
  owns_its_kind w1 (SpBlock p (deleter_of c) 1).
Proof.
  intros Hal Ha Hp.
  assert ((deleter_of c = RSA_free ∧ w_live w !! p = None ∧
           w_live w1 = <[p:=ObjRSA false]> (w_live w)) ∨
          (deleter_of c = X509_free ∧
           ∃ s i,
             s ≠ NULL ∧ i ≠ NULL ∧ s ≠ i ∧ s ≠ p ∧ i ≠ p ∧
             w_live w !! s = None ∧ w_live w !! i = None ∧
             w_live w !! p = None ∧
             w_live w1
             = <[p:=ObjX509 s i]>
                 (<[i:=ObjX509_NAME]> (<[s:=ObjX509_NAME]> (w_live w)))))
    as Hshape.
  { destruct c as [| |x509|trusted src cb arg]; simpl in *; [| |done|].
    - left. unfold openssl.RSA_new in Ha.
      destruct (openssl.next_outcome _) as [[|code] w0] eqn:Eo;
        apply next_outcome_frame in Eo as (Hl & _); [|by injection Ha as <-].
      apply alloc_spec in Ha as (_ & Hf & Hl1 & _).
      rewrite Hl in Hf, Hl1. done.
    - right. split; [done|]. unfold openssl.X509_new in Ha.
      destruct (openssl.next_outcome _) as [[|code] w0] eqn:Eo;
        apply next_outcome_frame in Eo as (Hl & _); [|by injection Ha as <-].
      apply alloc_X509_detail in Ha as (s & i & Hx). rewrite Hl in Hx.
      exists s, i. tauto.
    - right. split; [done|]. unfold openssl.PEM_read in Ha.
      destruct (openssl.next_outcome _) as [[|code] w0] eqn:Eo;
        apply next_outcome_frame in Eo as (Hl & _); [|by injection Ha as <-].
      apply alloc_X509_detail in Ha as (s & i & Hx). rewrite Hl in Hx.
      exists s, i. tauto. }
  unfold footprint, owns_its_kind. simpl.
  destruct Hshape as [(-> & Hf & ->)
                     |(-> & s & i & Hs & Hi & Hsi & Hsp & Hip
                       & Fs & Fi & Fp & ->)].
  - split; [|split; [|split]].
    + intros a [o Ho]. rewrite lookup_insert_ne; [done|]. congruence.
    + intros a. destruct (decide (p = a)) as [<-|Hne]; [set_solver|].
      rewrite lookup_insert_ne by done. by left.
    + intros a Hin. apply elem_of_singleton in Hin as ->.
      rewrite lookup_insert_eq. eauto.
    + rewrite lookup_insert_eq. eauto.
  - rewrite lookup_insert_eq.
    split; [|split; [|split]].
    + intros a [o Ho]. rewrite !lookup_insert_ne; [done|congruence..].
    + intros a. rewrite elem_of_triple.
      destruct (decide (a = p)) as [->|Hnp]; [tauto|].
      destruct (decide (a = i)) as [->|Hni]; [tauto|].
      destruct (decide (a = s)) as [->|Hns]; [tauto|].
      rewrite !lookup_insert_ne by done. by left.
    + intros a Hin. apply elem_of_triple in Hin as [-> |[-> | ->]].
      * rewrite lookup_insert_eq. eauto.
      * rewrite lookup_insert_ne, lookup_insert_ne, lookup_insert_eq by done.
        eauto.
      * rewrite lookup_insert_ne, lookup_insert_eq by done. eauto.
    + eauto.
Qed.

(** ** Every statement keeps the invariant *)

Lemma world_ok_destroyed w w' d p :
  world_ok w →
  w_blocks w' = delete (w_next w) (w_blocks w) →
  w_next w' = S (w_next w) →
  w_deleted w' = w_deleted w ++ [DelEvent (w_next w) d p] →
  world_ok w'.
Proof.
  intros [Hb Hd] Hb' Hn' Hd'. split.
  - intros b blk. rewrite Hb', Hn'.
    destruct (decide (w_next w = b)) as [<-|Hne].
    + by rewrite lookup_delete_eq.
    + rewrite lookup_delete_ne by done. intros Hl.
      destruct (Hb _ _ Hl). lia.
  - intros e. rewrite Hd', Hn', elem_of_app, list_elem_of_singleton.
    intros [He| ->]; [specialize (Hd _ He)|simpl]; lia.
Qed.

Lemma world_ok_construct c w :
  world_ok w → world_ok (world_of (construct c w)).
Proof.
  intros Hok. destruct (construct c w) as [s w'|e w'] eqn:Hc; simpl.
  - destruct (construct_ok _ _ _ _ Hc) as (w1 & Ha & _ & _ & ->).
    apply acquire_frame in Ha as (Hb & Hn & Hd).
    apply world_ok_made. by apply (world_ok_frame w).
  - destruct (construct_throw _ _ _ _ Hc) as (w1 & _ & Hb & Hn & Hd & _).
    by apply (world_ok_destroyed w w' (deleter_of c) NULL).
Qed.

Lemma handle_exists_block s d w :
  handle_exists s d w = true →
  ∃ n, w_blocks w !! sp_pn s = Some (SpBlock (sp_px s) d n).
Proof.
  unfold handle_exists.
  destruct (w_blocks w !! sp_pn s) as [[p d' n]|]; [|done]. simpl.
  intros Hh. apply andb_true_iff in Hh as [Hp Hd].
  apply bool_decide_eq_true in Hp, Hd. subst. by exists n.
Qed.

Lemma set_blinding_live b rsa w :
  ∀ a, w_live (openssl.set_blinding b rsa w) !! a = w_live w !! a ∨
       (a = rsa ∧ ∃ f, w_live w !! a = Some (ObjRSA f) ∧
                       w_live (openssl.set_blinding b rsa w) !! a
                       = Some (ObjRSA b)).
Proof.
  intros a. unfold openssl.set_blinding.
  destruct (w_live w !! rsa) as [[f| | |]|] eqn:El; try by left.
  simpl. destruct (decide (rsa = a)) as [<-|Hne].
  - right. rewrite lookup_insert_eq. eauto.
  - left. by rewrite lookup_insert_ne.
Qed.

(** Blinding on or off: the control blocks stay, and the one object that
    may change is the key, which stays a key. *)
Lemma blinding_effect (on : bool) k ctx w :
  let w' := if on then world_of (rsa_key.enable_blinding k ctx w)
            else world_of (rsa_key.disable_blinding k w) in
  w_blocks w' = w_blocks w ∧ w_next w' = w_next w ∧
  w_deleted w' = w_deleted w ∧
  ∀ a, w_live w' !! a = w_live w !! a ∨
       (a = rsa_key.raw k ∧
        ∃ f f', w_live w !! a = Some (ObjRSA f) ∧
                w_live w' !! a = Some (ObjRSA f')).
Proof.
  destruct on; simpl.
  - unfold rsa_key.enable_blinding, bind, lift, openssl.RSA_blinding_on.
    destruct (openssl.next_outcome _) as [[|c] w0] eqn:Eo;
      apply next_outcome_frame in Eo as (Hl & _ & _ & Hb & Hn & Hd);
      simpl in *.
    + destruct (set_blinding_frame true (boost.get (rsa_key.m_rsa k)) w0)
        as (_ & _ & _ & Sb & Sn & Sdel).
      rewrite Sb, Sn, Sdel. repeat split; try done.
      intros a.
      destruct (set_blinding_live true (boost.get (rsa_key.m_rsa k)) w0 a)
        as [->|(-> & f & Hf & ->)]; [left; by rewrite Hl|right].
      split; [done|]. rewrite <- Hl. eauto.
    + repeat split; try done. intros a. left. by rewrite Hl.
  - set (w0 := log_call _ w).
    destruct (set_blinding_frame false (boost.get (rsa_key.m_rsa k)) w0)
      as (_ & _ & _ & Sb & Sn & Sdel).
    rewrite Sb, Sn, Sdel. repeat split; try done.
    intros a.
    destruct (set_blinding_live false (boost.get (rsa_key.m_rsa k)) w0 a)
      as [->|(-> & f & Hf & ->)]; [by left|right]. eauto.
Qed.

Lemma view_effect (of_issuer : bool) c w s i :
  w_live w !! certificate.raw c = Some (ObjX509 s i) →
  let w' := world_of ((if of_issuer then certificate.issuer c
                       else certificate.subject c) w) in
  ∃ p w1,
    w_live w1 = w_live w ∧ w_blocks w1 = w_blocks w ∧
    w_next w1 = w_next w ∧ w_deleted w1 = w_deleted w ∧
    (w' = made p null_deleter w1 ∨ (w' = unwound NULL null_deleter w1)).
Proof.
  intros Hl. destruct of_issuer; simpl.
  - rewrite issuer_spec. simpl. rewrite Hl.
    case_decide as Hp; exists i, (log_call
      (Call_X509_get_issuer_name (certificate.raw c)) w);
      repeat split; try done; [right|left]; by rewrite ?Hp.
  - rewrite subject_spec. simpl. rewrite Hl.
    case_decide as Hp; exists s, (log_call
      (Call_X509_get_subject_name (certificate.raw c)) w);
      repeat split; try done; [right|left]; by rewrite ?Hp.
Qed.

Lemma owned_exec w0 cmd w w' :
  owned w0 w → allocating cmd = true → exec cmd w = Some w' → owned w0 w'.
Proof.
  intros Hown Hal Hex.
  pose proof (owned_ok _ _ Hown) as Hok.
  destruct cmd as [c|o|of_issuer c|on k ctx]; simpl in *.
  - (* a construction *)
    injection Hex as <-.
    destruct (construct c w) as [s w1|e w1] eqn:Hc; simpl.
    + destruct (construct_ok _ _ _ _ Hc) as (wa & Ha & Hp & _ & ->).
      destruct (acquire_owned _ _ _ _ Hal Ha Hp) as (H1 & H2 & H3 & H4).
      destruct (acquire_frame _ _ _ _ Ha) as (Hb & Hn & Hd).
      by apply (owned_new_block w0 w).
    + destruct (construct_throw _ _ _ _ Hc) as (wa & Ha & Hb & Hn & Hd & Hl & _).
      apply (owned_same w0 w); [done| | |].
      * by apply (world_ok_destroyed w w1 (deleter_of c) NULL).
      * intros b. rewrite Hb, delete_id; [done|].
        by apply world_ok_next_unused.
      * intros a. left. by rewrite Hl, (acquire_null _ _ _ Ha).
  - (* a copy or a destruction *)
    unfold step_op in Hex.
    destruct (w_blocks w !! sp_pn (op_target o)) as [[p d u]|] eqn:Hb;
      [|done].
    injection Hex as <-. destruct o as [s|s]; simpl in Hb.
    + apply (owned_same w0 w); [done|by apply world_ok_copy| |by left].
      intros b. simpl. destruct (decide (sp_pn s = b)) as [<-|Hne].
      * rewrite lookup_alter_eq. by destruct (w_blocks w !! sp_pn s).
      * by rewrite lookup_alter_ne.
    + pose proof (world_ok_release s w Hok) as Hok'.
      pose proof (release_effect s w) as [_ Hr]. rewrite Hb in Hr.
      destruct u as [|[|n]].
      * destruct Hok as [Hpos _]. destruct (Hpos _ _ Hb) as [_ Hu].
        simpl in Hu. lia.
      * destruct Hr as (Hr1 & _).
        apply (owned_drop_block w0 w _ (sp_pn s) (SpBlock p d 1));
          [done..|].
        unfold boost.release. rewrite Hb.
        apply (run_deleter_frees_footprint w); [|intros Hd|done].
        -- apply (owned_kind _ _ Hown _ _ Hb).
        -- apply (owned_live _ _ Hown _ _ _ Hb).
           by apply (footprint_ptr w (SpBlock p d 1)).
      * destruct Hr as (Hr1 & _ & Hr3 & _).
        apply (owned_same w0 w); [done..| |intros a; left; by rewrite Hr3].
        intros b. rewrite Hr1. destruct (decide (sp_pn s = b)) as [<-|Hne].
        -- by rewrite lookup_insert_eq, Hb.
        -- by rewrite lookup_insert_ne.
  - (* a view *)
    destruct (handle_exists (certificate.m_x509 c) X509_free w) eqn:Hh;
      [|done].
    injection Hex as <-.
    apply handle_exists_block in Hh as [n Hb].
    destruct (owned_kind _ _ Hown _ _ Hb) as (s & i & Hl). simpl in Hl.
    destruct (view_effect of_issuer c w s i Hl)
      as (p & w1 & Hl1 & Hb1 & Hn1 & Hd1 & [-> | ->]).
    + apply (owned_new_block w0 w); try done.
      * intros a _. by rewrite Hl1.
      * intros a. rewrite Hl1. by left.
    + destruct (unwound_null_fields null_deleter w1) as (Fb & Fn & Fd & Fl).
      assert (world_ok w1) as Hok1 by by apply (world_ok_frame w).
      apply (owned_same w0 w); [done| | |].
      * by apply (world_ok_destroyed w1 _ null_deleter NULL).
      * intros b. rewrite Fb, delete_id, Hb1; [done|].
        by apply world_ok_next_unused.
      * intros a. left. by rewrite Fl, Hl1.
  - (* blinding *)
    destruct (handle_exists (rsa_key.m_rsa k) RSA_free w) eqn:Hh; [|done].
    injection Hex as <-.
    apply handle_exists_block in Hh as [n Hb].
    pose proof (blinding_effect on k ctx w) as He. simpl in He.
    destruct He as (Eb & En & Ed & El).
    apply (owned_same w0 w); [done| | |].
    + by apply (world_ok_frame w).
    + intros b. by rewrite Eb.
    + intros a. destruct (El a) as [|(-> & Hf)]; [by left|right].
      split; [|done].
      apply (owned_live _ _ Hown _ _ _ Hb).
      by apply (footprint_ptr w (SpBlock _ RSA_free n)).
Qed.

Lemma owned_run_program w0 cmds :
  ∀ w w',
    owned w0 w → forallb allocating cmds = true →
    run_program cmds w = Some w' → owned w0 w'.
Proof.
  induction cmds as [|cmd cmds IH]; intros w w' Hown Hall; cbn [run_program].
  - by intros [= <-].
  - cbn [forallb] in Hall. apply andb_true_iff in Hall as [Hal Hall].
    destruct (exec cmd w) as [w1|] eqn:Hex; [|done].
    apply IH; [|done]. by apply (owned_exec w0 cmd w).
Qed.

(** ** Programs that allocate what they own *)

(** X9.  Take a program over both classes that never hands a raw address
    to [certificate(X509* x509)], started in a world without control
    blocks: constructions (caught when they throw), copies, destructions,
    views and blinding.  In every world it reaches, each control block
    bound to [RSA_free] or [X509_free] holds a non-null address at which a
    key, respectively a certificate, is alive, allocated after the start,
    and no two such control blocks hold the same address. *)
Theorem live_handles_own_live_objects
    (w0 : world) (cmds : list command) (w : world) :
  w_blocks w0 = ∅ →
  world_ok w0 →
  forallb allocating cmds = true →
  run_program cmds w0 = Some w →
  ∀ b blk,
    w_blocks w !! b = Some blk →
    blk_del blk ≠ null_deleter →
    blk_ptr blk ≠ NULL ∧
    owns_its_kind w blk ∧
    w_live w0 !! blk_ptr blk = None ∧
    ∀ b' blk',
      w_blocks w !! b' = Some blk' →
      blk_del blk' ≠ null_deleter →
      blk_ptr blk' = blk_ptr blk →
      b' = b.
Proof.
  intros He Hok Hall Hrun b blk Hb Hd.
  pose proof (owned_run_program w0 cmds w0 w (owned_init _ He Hok) Hall Hrun)
    as Hown.
  pose proof (footprint_ptr w blk Hd) as Hin.
  destruct (owned_live _ _ Hown _ _ _ Hb Hin) as (Hn & _ & H0).
  split; [done|]. split; [by apply (owned_kind _ _ Hown b)|].
  split; [done|].
  intros b' blk' Hb' Hd' Hp.
  apply (owned_apart _ _ Hown b' b blk' blk (blk_ptr blk)); try done.
  rewrite <- Hp. by apply footprint_ptr.
Qed.

(** A certificate and a key are built. *)
Lemma live_handles_own_live_objects_witness :
  ∃ w,
    run_program [Make NewCertificate; Make NewRsaKey] (init_world [])
    = Some w ∧
    w_blocks w !! 1%nat = Some (SpBlock 4 RSA_free 1) ∧
    owns_its_kind w (SpBlock 4 RSA_free 1).
Proof.
  set (cmds := [Make NewCertificate; Make NewRsaKey]).
  set (w := default (init_world []) (run_program cmds (init_world []))).
  assert (run_program cmds (init_world []) = Some w) as Hrun
    by (vm_compute; reflexivity).
  assert (w_blocks w !! 1%nat = Some (SpBlock 4 RSA_free 1)) as Hb
    by (vm_compute; reflexivity).
  assert (blk_del (SpBlock 4 RSA_free 1) ≠ null_deleter) as Hd by done.
  exists w. split; [exact Hrun|]. split; [exact Hb|].
  exact (proj1 (proj2 (live_handles_own_live_objects (init_world []) cmds w
                         eq_refl (world_ok_init []) eq_refl Hrun
                         1%nat _ Hb Hd))).
Defined.

(** X10.  Such a program leaks nothing and frees nothing it did not
    allocate: once every key and certificate it built is destroyed (only
    views may be left), the objects of the library are exactly those of
    the start. *)
Theorem balanced_program_leaks_nothing
    (w0 : world) (cmds : list command) (w : world) :
  w_blocks w0 = ∅ →
  world_ok w0 →
  forallb allocating cmds = true →
  run_program cmds w0 = Some w →
  (∀ b blk, w_blocks w !! b = Some blk → blk_del blk = null_deleter) →
  w_live w = w_live w0.
Proof.
  intros He Hok Hall Hrun Hviews.
  pose proof (owned_run_program w0 cmds w0 w (owned_init _ He Hok) Hall Hrun)
    as Hown.
  apply map_eq. intros a.
  destruct (w_live w0 !! a) as [o|] eqn:E0.
  - rewrite <- E0. apply (owned_base _ _ Hown). rewrite E0. eauto.
  - destruct (w_live w !! a) as [o|] eqn:E; [|done].
    destruct (owned_cover _ _ Hown a) as [[? Hs]|(b & blk & Hb & Hin)];
      [eauto|congruence|].
    apply footprint_null_deleter in Hin. by specialize (Hviews _ _ Hb).
Qed.

(** A certificate and a key are built; the certificate is copied and
    viewed, blinding is enabled on the key, and everything is destroyed. *)
Lemma balanced_program_leaks_nothing_witness :
  ∃ w,
    run_program
      [Make NewCertificate; Make NewRsaKey;
       Share (OpCopy (SharedPtr 3 0));
       View false (certificate.Build (SharedPtr 3 0));
       Blind true (rsa_key.Build (SharedPtr 4 1)) NULL;
       Share (OpRelease (SharedPtr 3 0));
       Share (OpRelease (SharedPtr 1 2));
       Share (OpRelease (SharedPtr 4 1));
       Share (OpRelease (SharedPtr 3 0))]
      (init_world []) = Some w ∧
    w_blocks w = ∅ ∧
    w_live w = ∅.
Proof.
  set (cmds := [Make NewCertificate; Make NewRsaKey;
                Share (OpCopy (SharedPtr 3 0));
                View false (certificate.Build (SharedPtr 3 0));
                Blind true (rsa_key.Build (SharedPtr 4 1)) NULL;
                Share (OpRelease (SharedPtr 3 0));
                Share (OpRelease (SharedPtr 1 2));
                Share (OpRelease (SharedPtr 4 1));
                Share (OpRelease (SharedPtr 3 0))]).
  set (w := default (init_world []) (run_program cmds (init_world []))).
  assert (run_program cmds (init_world []) = Some w) as Hrun
    by (vm_compute; reflexivity).
  assert (w_blocks w = ∅) as Hb.
  { apply map_eq. intros b. rewrite lookup_empty.
    destruct b as [|[|[|b]]]; vm_compute; reflexivity. }
  exists w. split; [exact Hrun|]. split; [exact Hb|].
  apply (balanced_program_leaks_nothing (init_world []) cmds w
           eq_refl (world_ok_init []) eq_refl Hrun).
  intros b blk. rewrite Hb, lookup_empty. discriminate.
Defined.

(** X11.  In a world such a program reaches, destroying the last copy of
    a key or certificate frees the object at its address, which was alive,
    and leaves the object of every other key and certificate as it was. *)
Theorem destruction_frees_only_own_object
    (w0 : world) (cmds : list command) (w : world)
    (s : shared_ptr) (p : Z) (d : deleter) :
  w_blocks w0 = ∅ →
  world_ok w0 →
  forallb allocating cmds = true →
  run_program cmds w0 = Some w →
  w_blocks w !! sp_pn s = Some (SpBlock p d 1) →
  d ≠ null_deleter →
  is_Some (w_live w !! p) ∧
  w_live (boost.release s w) !! p = None ∧
  ∀ b blk,
    b ≠ sp_pn s →
    w_blocks w !! b = Some blk →
    blk_del blk ≠ null_deleter →
    w_live (boost.release s w) !! blk_ptr blk = w_live w !! blk_ptr blk.
Proof.
  intros He Hok Hall Hrun Hb Hd.
  pose proof (owned_run_program w0 cmds w0 w (owned_init _ He Hok) Hall Hrun)
    as Hown.
  pose proof (footprint_ptr w (SpBlock p d 1) Hd) as Hin. simpl in Hin.
  destruct (owned_live _ _ Hown _ _ _ Hb Hin) as (Hn & Hs & _).
  assert (∀ a, w_live (boost.release s w) !! a
               = if decide (a ∈ footprint w (SpBlock p d 1)) then None
                 else w_live w !! a) as Hfreed.
  { unfold boost.release. rewrite Hb.
    apply (run_deleter_frees_footprint w); [|done..].
    apply (owned_kind _ _ Hown _ _ Hb). }
  split; [done|]. split.
  - rewrite Hfreed. by rewrite decide_True.
  - intros b blk Hne Hbo Hdo. rewrite Hfreed.
    rewrite decide_False; [done|]. intros Hin'. apply Hne.
    apply (owned_apart _ _ Hown b (sp_pn s) blk (SpBlock p d 1)
             (blk_ptr blk)); try done.
    by apply footprint_ptr.
Qed.

(** A certificate and a key are built and the key is destroyed: the
    certificate is still alive. *)
Lemma destruction_frees_only_own_object_witness :
  ∃ w,
    run_program [Make NewCertificate; Make NewRsaKey] (init_world [])
    = Some w ∧
    w_live (boost.release (SharedPtr 4 1) w) !! 4 = None ∧
    w_live (boost.release (SharedPtr 4 1) w) !! 3 = Some (ObjX509 1 2).
Proof.
  set (cmds := [Make NewCertificate; Make NewRsaKey]).
  set (w := default (init_world []) (run_program cmds (init_world []))).
  assert (run_program cmds (init_world []) = Some w) as Hrun
    by (vm_compute; reflexivity).
  assert (w_blocks w !! sp_pn (SharedPtr 4 1) = Some (SpBlock 4 RSA_free 1))
    as Hb by (vm_compute; reflexivity).
  assert (RSA_free ≠ null_deleter) as Hd by done.
  destruct (destruction_frees_only_own_object (init_world []) cmds w
              (SharedPtr 4 1) 4 RSA_free
              eq_refl (world_ok_init []) eq_refl Hrun Hb Hd)
    as (_ & Hfreed & Hkeep).
  exists w. split; [exact Hrun|]. split; [exact Hfreed|].
  assert (w_blocks w !! 0%nat = Some (SpBlock 3 X509_free 1)) as Hc
    by (vm_compute; reflexivity).
  assert (blk_del (SpBlock 3 X509_free 1) ≠ null_deleter) as Hdc by done.
  assert (0%nat ≠ sp_pn (SharedPtr 4 1)) as Hne by done.
  etrans; [exact (Hkeep 0%nat _ Hne Hc Hdc)|vm_compute; reflexivity].
Defined.
